(** * Nyay-sarthi backend: sentencing advisor and case-file registry

    A shallow embedding of [src/backend/main.py]:

    - Person 3, the sentencing advisor: [NyaySarthiTool.recommend_sentence]
      with its inner [get_stats], the module constant [historical_data] and
      the endpoint [api_recommend_sentence];
    - Person 6, the case-file registry: the class [CriminalCase], the module
      dictionary [case_files_db] and the endpoints [api_create_case],
      [api_get_case], [api_get_all_cases], [api_add_evidence],
      [api_update_status].

    Python integers are [Z]; Python strings are [string]; a Python [float]
    is an IEEE 754 binary64 value given by sign, mantissa and exponent; a
    Python exception is a constructor of [exn] carried by the error monad
    [py]; the registry dictionary is an insertion-ordered dictionary
    [odict CriminalCase] threaded through the endpoints. *)

From Stdlib Require Import ZArith QArith Qabs Lia List Bool.
From stdpp Require Import gmap strings list fin_maps pretty.

Local Open Scope Z_scope.

(** ** Python exceptions as an error monad *)

Inductive exn : Set :=
| ZeroDivisionError
| OverflowError
| TypeError
| ValueError.

Inductive py (A : Type) : Type :=
| Return (a : A)
| Raise (e : exn).

Arguments Return {A} a.
Arguments Raise {A} e.

(** Sequencing: [x ← m; k] runs [m] and passes its value to [k]; an
    exception raised by [m] propagates. *)
#[global] Instance py_ret : MRet py := fun A a => Return a.
#[global] Instance py_bind : MBind py := fun A B k m =>
  match m with
  | Return a => k a
  | Raise e => Raise e
  end.

(** ** Binary64 floating point

    [int / int] and [round(x, 1)] are the only floating-point operations of
    [get_stats].  Both are correctly rounded in CPython: true division of
    two integers returns the binary64 value nearest to the exact quotient
    (ties to even), and [round(x, 1)] takes the exact value of [x], rounds
    it to the nearest multiple of 1/10 (ties to even) and returns the
    binary64 value nearest to that decimal. *)

Module Float.

(** The value of [Float s m e] is [(-1)^s * m * 2^e], with [0 <= m < 2^53].
    Normal numbers have [2^52 <= m] and [-1074 <= e <= 971]; subnormal
    numbers and the zeros have [e = -1074] and [m < 2^52]. *)
Record float : Set := Float { fsign : bool; fmant : Z; fexp : Z }.

Definition prec : Z := 53.
Definition emin : Z := -1074.
Definition emax : Z := 971.

(** Nearest integer to [a / b] for [0 < b], ties to the even integer. *)
Definition rhe_div (a b : Z) : Z :=
  let q := a / b in
  let r := a mod b in
  if 2 * r <? b then q
  else if b <? 2 * r then q + 1
  else if Z.even q then q else q + 1.

(** [2^k <= p / d], decided on integers. *)
Definition pow2_le_ratio (k p d : Z) : bool :=
  if 0 <=? k then d * 2 ^ k <=? p else d <=? p * 2 ^ (- k).

(** [floor (log2 (p / d))] for [0 < p] and [0 < d]. *)
Definition floor_log2_ratio (p d : Z) : Z :=
  let k := Z.log2 p - Z.log2 d in
  if pow2_le_ratio k p d then k else k - 1.

(** Mantissa and exponent of the binary64 value nearest to [p / d], for
    [0 < p] and [0 < d]; [None] when the rounded value exceeds the largest
    finite binary64 number. *)
Definition round_pos (p d : Z) : option (Z * Z) :=
  let e := Z.max (floor_log2_ratio p d - (prec - 1)) emin in
  let m := if 0 <=? e then rhe_div p (d * 2 ^ e)
           else rhe_div (p * 2 ^ (- e)) d in
  let '(m, e) := if m =? 2 ^ prec then (2 ^ (prec - 1), e + 1) else (m, e) in
  if emax <? e then None else Some (m, e).

(** The binary64 value of sign [s] nearest in magnitude to [p / d], for
    [0 <= p] and [0 < d]. *)
Definition of_ratio (s : bool) (p d : Z) : option float :=
  if p =? 0 then Some (Float s 0 emin)
  else match round_pos p d with
       | Some (m, e) => Some (Float s m e)
       | None => None
       end.

(** The exact rational value. *)
Definition to_Q (x : float) : Q :=
  let v := if 0 <=? fexp x
           then inject_Z (fmant x * 2 ^ fexp x)
           else Qmake (fmant x) (Z.to_pos (2 ^ (- fexp x))) in
  if fsign x then Qopp v else v.

(** The double written as the decimal literal [t / 10], e.g.
    [of_tenths 273] is the float [27.3]. *)
Definition of_tenths (t : Z) : option float :=
  of_ratio (t <? 0) (Z.abs t) 10.

(** [a / b] on Python integers (long_true_divide). *)
Definition truediv (a b : Z) : py float :=
  if b =? 0 then Raise ZeroDivisionError
  else match of_ratio (xorb (a <? 0) (b <? 0)) (Z.abs a) (Z.abs b) with
       | Some x => Return x
       | None => Raise OverflowError
       end.

(** The integer nearest to [10 * |x|], ties to even: the digits that
    float.__round__ obtains from the exact value of [x]. *)
Definition tenths_of (x : float) : Z :=
  if 0 <=? fexp x then 10 * fmant x * 2 ^ fexp x
  else rhe_div (10 * fmant x) (2 ^ (- fexp x)).

(** [round(x, 1)]: the decimal string of [x] with one digit after the
    point, converted back to a double; the sign of [x] is kept. *)
Definition round1 (x : float) : py float :=
  match of_ratio (fsign x) (tenths_of x) 10 with
  | Some y => Return y
  | None => Raise OverflowError
  end.

End Float.

Import Float.

(** ** Python dictionaries with string keys

    A Python [dict] keeps its keys in insertion order: assigning to a key
    that is present replaces the value in place, assigning to a new key
    appends the key at the end, and [values()] follows that order.  The
    items are kept as a list of key/value pairs without repeated keys. *)

(** [d.get(key)] on the items: the value of the first pair with that key. *)
Fixpoint items_get {V} (items : list (string * V)) (key : string)
  : option V :=
  match items with
  | [] => None
  | (key', value) :: rest =>
      if decide (key' = key) then Some value else items_get rest key
  end.

(** [d[key] = value] on the items: replace in place, or append. *)
Fixpoint items_set {V} (items : list (string * V)) (key : string) (value : V)
  : list (string * V) :=
  match items with
  | [] => [(key, value)]
  | (key', old) :: rest =>
      if decide (key' = key) then (key, value) :: rest
      else (key', old) :: items_set rest key value
  end.

Record odict (V : Type) : Type := ODict {
  odict_items : list (string * V);
  odict_nodup : Is_true (bool_decide (NoDup odict_items.*1))
}.

Arguments ODict {V} _ _.
Arguments odict_items {V} _.
Arguments odict_nodup {V} _.

#[global] Instance odict_lookup {V} : Lookup string V (odict V) :=
  fun k d => items_get (odict_items d) k.

#[global] Instance odict_empty {V} : Empty (odict V) :=
  ODict [] (bool_decide_pack _ (NoDup_nil_2 (A := string))).

(** [d[k] = v]; the obligation is that assignment keeps the keys free of
    repetitions. *)
#[global] Program Instance odict_insert {V} : Insert string V (odict V) :=
  fun k v d => ODict (items_set (odict_items d) k v) _.
Next Obligation.
  intros V k v d. apply bool_decide_pack.
  pose proof (bool_decide_unpack _ (odict_nodup d)) as Hnd.
  revert Hnd. generalize (odict_items d). clear d. intros l.
  assert (forall (l : list (string * V)) x,
            x ∈ (items_set l k v).*1 -> x = k \/ x ∈ l.*1) as Hkeys.
  { intros l'. induction l' as [|[k' v'] l' IH]; intros x; cbn.
    - intros Hx. apply list_elem_of_singleton in Hx. auto.
    - destruct (decide (k' = k)) as [->|Hne]; cbn.
      + intros Hx. apply elem_of_cons in Hx as [->|Hx]; [auto|].
        right. now right.
      + intros Hx. apply elem_of_cons in Hx as [->|Hx]; [right; left|].
        destruct (IH x Hx) as [->|Hin]; [auto|right; now right]. }
  induction l as [|[k' v'] l IH]; cbn; intros Hnd.
  - apply NoDup_singleton.
  - apply NoDup_cons in Hnd as [Hnotin Hnd].
    destruct (decide (k' = k)) as [->|Hne]; cbn.
    + apply NoDup_cons. split; assumption.
    + apply NoDup_cons. split; [|now apply IH].
      intros Hin. destruct (Hkeys l k' Hin) as [->|Hin']; contradiction.
Qed.

#[global] Instance odict_singleton {V} : SingletonM string V (odict V) :=
  fun k v => <[k := v]> ∅.

(** The keys, as a set. *)
#[global] Instance odict_dom {V} : Dom (odict V) (gset string) :=
  fun d => list_to_set (odict_items d).*1.

(** [len(d)]. *)
#[global] Instance odict_size {V} : Size (odict V) :=
  fun d => length (odict_items d).

(** [d.values()], in insertion order. *)
Definition odict_values {V} (d : odict V) : list V := (odict_items d).*2.

(** ** Person 3: the sentencing advisor *)

Module Sentencing.

(** One dictionary of [historical_data]. *)
Record HistoricalCase : Set := {
  case_id : string;
  crime_type : string;
  severity_score : Z;
  sentence_given_months : Z
}.

(** The dictionary returned by [get_stats]. *)
Record Stats : Set := {
  recommendation_months : float;
  min_sentence : Z;
  max_sentence : Z;
  case_count : Z
}.

(** The dictionary returned by [recommend_sentence]; [data] is [None] for
    Python's [None]. *)
Record Recommendation : Set := {
  status : string;
  data : option Stats;
  basis : string
}.

(** Builtins used by [get_stats]. *)
Definition py_sum (l : list Z) : Z := fold_left Z.add l 0.

Definition py_len {A} (l : list A) : Z := Z.of_nat (length l).

Definition py_min (l : list Z) : py Z :=
  match l with
  | [] => Raise ValueError
  | x :: l' => Return (fold_left Z.min l' x)
  end.

Definition py_max (l : list Z) : py Z :=
  match l with
  | [] => Raise ValueError
  | x :: l' => Return (fold_left Z.max l' x)
  end.

(** [x in l] on a list of integers. *)
Definition py_in (x : Z) (l : list Z) : bool := existsb (Z.eqb x) l.

(** Truth value of a list: [if cases] holds for a non-empty list. *)
Definition truthy {A} (l : list A) : bool :=
  match l with [] => false | _ :: _ => true end.

(** [stats['case_count']]: subscripting [None] raises [TypeError]. *)
Definition subscript_case_count (stats : option Stats) : py Z :=
  match stats with
  | Some st => Return (case_count st)
  | None => Raise TypeError
  end.

Definition get_stats (cases : list HistoricalCase) : py (option Stats) :=
  if negb (truthy cases) then Return None
  else
    let sentences := map sentence_given_months cases in
    mean ← truediv (py_sum sentences) (py_len sentences);
    rec ← round1 mean;
    lo ← py_min sentences;
    hi ← py_max sentences;
    Return (Some {| recommendation_months := rec;
                    min_sentence := lo;
                    max_sentence := hi;
                    case_count := py_len cases |}).

Definition direct_basis (n : Z) : string :=
  "Direct match from " +:+ pretty n +:+ " historical case(s).".

Definition estimate_basis (n : Z) : string :=
  "Estimate based on " +:+ pretty n +:+ " case(s) with similar severity.".

Definition recommend_sentence (dataset : list HistoricalCase)
    (crime : string) (severity : Z) : py Recommendation :=
  let matching_cases :=
    List.filter (fun c => String.eqb (crime_type c) crime
                          && (severity_score c =? severity)) dataset in
  if truthy matching_cases then
    stats ← get_stats matching_cases;
    n ← subscript_case_count stats;
    Return {| status := "Success"; data := stats; basis := direct_basis n |}
  else
    let adjacent :=
      List.filter (fun s => (1 <=? s) && (s <=? 5))
                  [severity - 1; severity + 1] in
    let similar_cases :=
      List.filter (fun c => String.eqb (crime_type c) crime
                            && py_in (severity_score c) adjacent) dataset in
    if truthy similar_cases then
      stats ← get_stats similar_cases;
      n ← subscript_case_count stats;
      Return {| status := "Success (Estimated)"; data := stats;
                basis := estimate_basis n |}
    else
      Return {| status := "Failed"; data := None;
                basis := "No historical data found for this crime type." |}.

Definition hc (i c : string) (s m : Z) : HistoricalCase :=
  {| case_id := i; crime_type := c; severity_score := s;
     sentence_given_months := m |}.

Definition historical_data : list HistoricalCase :=
  [ hc "HN001" "Theft" 2 3;
    hc "HN002" "Assault" 3 12;
    hc "HN003" "Burglary" 4 24;
    hc "HN004" "Fraud" 5 60;
    hc "HN005" "Theft" 2 4;
    hc "HN006" "Vandalism" 1 1;
    hc "HN007" "Burglary" 4 30;
    hc "HN008" "Assault" 4 18;
    hc "HN009" "Theft" 3 6;
    hc "HN010" "Burglary" 4 28 ].

(** [nyay_sarthi_instance.recommend_sentence], as called by the endpoint
    [/sentencing/recommend]. *)
Definition api_recommend_sentence (crime : string) (severity : Z)
  : py Recommendation :=
  recommend_sentence historical_data crime severity.

End Sentencing.

Import Sentencing.

(** ** Person 6: the case-file registry *)

Module Registry.

(** One dictionary of [evidence_log]. *)
Record EvidenceEntry : Set := {
  evidence_item : string;
  timestamp : string
}.

(** The attributes of a [CriminalCase] object; [to_dict] returns them. *)
Record CriminalCase : Set := {
  case_id : string;
  defendant_name : string;
  evidence_log : list EvidenceEntry;
  case_status : string
}.

(** [CriminalCase.__init__]. *)
Definition new_case (id name : string) : CriminalCase :=
  {| case_id := id; defendant_name := name;
     evidence_log := []; case_status := "Investigation" |}.

(** [CriminalCase.add_evidence]; [now] is the reading of
    [datetime.datetime.now()] formatted by [strftime]. *)
Definition add_evidence (self : CriminalCase) (item now : string)
  : CriminalCase :=
  {| case_id := case_id self; defendant_name := defendant_name self;
     evidence_log := evidence_log self
                     ++ [{| evidence_item := item; timestamp := now |}];
     case_status := case_status self |}.

(** [CriminalCase.update_status]. *)
Definition update_status (self : CriminalCase) (new_status : string)
  : CriminalCase :=
  {| case_id := case_id self; defendant_name := defendant_name self;
     evidence_log := evidence_log self;
     case_status := new_status |}.

Definition to_dict (self : CriminalCase) : CriminalCase := self.

(** The dictionaries returned by the endpoints: a status with the data of
    one case, with the data of all cases, or with a message. *)
Inductive Response : Set :=
| CaseData (status : string) (data : CriminalCase)
| CaseList (status : string) (data : list CriminalCase)
| Message (status : string) (message : string).

(** The module dictionary [case_files_db]; every endpoint takes the
    current dictionary and returns its response with the dictionary it
    leaves behind. *)
Abbreviation case_files_db := (odict CriminalCase).

(** [case_files_db.values()] lists the cases in insertion order. *)
Definition api_get_all_cases (db : case_files_db)
  : Response * case_files_db :=
  (CaseList "success" (map to_dict (odict_values db)), db).

Definition api_create_case (id name : string) (db : case_files_db)
  : Response * case_files_db :=
  match db !! id with
  | Some _ => (Message "error" "Case ID already exists.", db)
  | None =>
      let case := new_case id name in
      (CaseData "success" (to_dict case), <[id := case]> db)
  end.

Definition api_get_case (id : string) (db : case_files_db)
  : Response * case_files_db :=
  match db !! id with
  | Some case => (CaseData "success" (to_dict case), db)
  | None => (Message "not_found" "Case not found.", db)
  end.

Definition api_add_evidence (id item now : string) (db : case_files_db)
  : Response * case_files_db :=
  match db !! id with
  | Some case =>
      let case := add_evidence case item now in
      (CaseData "success" (to_dict case), <[id := case]> db)
  | None => (Message "not_found" "Case not found.", db)
  end.

Definition api_update_status (id new_status : string) (db : case_files_db)
  : Response * case_files_db :=
  match db !! id with
  | Some case =>
      let case := update_status case new_status in
      (CaseData "success" (to_dict case), <[id := case]> db)
  | None => (Message "not_found" "Case not found.", db)
  end.

(** A request to one of the five endpoints of the registry. *)
Inductive Request : Set :=
| GetAllCases
| CreateCase (id name : string)
| GetCase (id : string)
| AddEvidence (id item now : string)
| UpdateStatus (id new_status : string).

Definition handle (rq : Request) (db : case_files_db)
  : Response * case_files_db :=
  match rq with
  | GetAllCases => api_get_all_cases db
  | CreateCase id name => api_create_case id name db
  | GetCase id => api_get_case id db
  | AddEvidence id item now => api_add_evidence id item now db
  | UpdateStatus id new_status => api_update_status id new_status db
  end.

(** The registry after serving a sequence of requests in order. *)
Fixpoint serve (rqs : list Request) (db : case_files_db) : case_files_db :=
  match rqs with
  | [] => db
  | rq :: rqs' => serve rqs' (snd (handle rq db))
  end.

End Registry.

(** ** Person 1: the investigator *)

Module Investigator.

(** One value of [suspect_database]. *)
Record Suspect : Set := {
  name : string;
  id : string;
  fingerprint_details : string;
  last_known_location : string
}.

(** A dictionary literal with string keys, in insertion order. *)
Definition dict (V : Type) : Type := list (string * V).

(** [d.get(k)]: the value stored under [k], or [None]. *)
Fixpoint dict_get {V} (d : dict V) (k : string) : option V :=
  match d with
  | [] => None
  | (k', v) :: d' => if String.eqb k' k then Some v else dict_get d' k
  end.

(** [d.values()], in insertion order. *)
Definition dict_values {V} (d : dict V) : list V := map snd d.

Definition suspect_database : dict Suspect :=
  [ ("A1B2-C3D4-E5F6",
     {| name := "John Doe"; id := "SUS101";
        fingerprint_details := "right thumb, whorl pattern";
        last_known_location := "East City" |});
    ("F7E8-D9C0-B1A2",
     {| name := "Jane Smith"; id := "SUS102";
        fingerprint_details := "left index, loop pattern";
        last_known_location := "Northwood" |});
    ("1234-5678-ABCD",
     {| name := "Peter Jones"; id := "SUS103";
        fingerprint_details := "right index, arch pattern";
        last_known_location := "Southville" |}) ].

(** The dictionaries returned by the two endpoints. *)
Inductive Response : Set :=
| Listing (status : string) (data : list Suspect)
| Found (status message : string) (data : Suspect)
| NotFound (status message : string).

(** The endpoints, over the dictionary they read.  A suspect dictionary has
    four keys, so [if match] holds for every value found. *)
Definition get_suspect_database (db : dict Suspect) : Response :=
  Listing "success" (dict_values db).

Definition find_match (db : dict Suspect) (crime_scene_hash : string)
  : Response :=
  match dict_get db crime_scene_hash with
  | Some m => Found "success" "Match Found!" m
  | None => NotFound "not_found" "No match found in the database."
  end.

Definition api_get_suspect_database : Response :=
  get_suspect_database suspect_database.

Definition api_find_match (crime_scene_hash : string) : Response :=
  find_match suspect_database crime_scene_hash.

End Investigator.

(** ** Person 2: the pre-trial analyst *)

Module PreTrial.

Record DefendantProfileInput : Set := {
  prior_offenses : Z;
  age_at_first_arrest : Z;
  has_stable_employment : bool
}.

(** The [risk_score] of the answer; its status is always "success". *)
Definition api_calculate_risk (data : DefendantProfileInput) : Z :=
  let age_factor := if age_at_first_arrest data <? 21 then 2 else 0 in
  let employment_factor :=
    if negb (has_stable_employment data) then 2 else 0 in
  prior_offenses data * 3 + age_factor * 2 + employment_factor * 1.

End PreTrial.

(** ** Person 4: the corrections officer *)

Module Corrections.

(** A Python float as the endpoint can receive it: finite, infinite or
    not a number. *)
Inductive pyfloat : Set :=
| Finite (x : float)
| PosInf
| NegInf
| NaN.

(** [a <= b] on floats: false as soon as one side is not a number. *)
Definition float_le (a b : pyfloat) : bool :=
  match a, b with
  | NaN, _ | _, NaN => false
  | NegInf, _ => true
  | _, PosInf => true
  | PosInf, _ => false
  | _, NegInf => false
  | Finite x, Finite y => Qle_bool (to_Q x) (to_Q y)
  end.

(** The floats [10.0] and [90.0]. *)
Definition SAFE_ZONE_X_MIN : pyfloat := Finite (Float false 5629499534213120 (-49)).
Definition SAFE_ZONE_X_MAX : pyfloat := Finite (Float false 6333186975989760 (-46)).
Definition SAFE_ZONE_Y_MIN : pyfloat := Finite (Float false 5629499534213120 (-49)).
Definition SAFE_ZONE_Y_MAX : pyfloat := Finite (Float false 6333186975989760 (-46)).
Definition CURFEW_START_HOUR : Z := 22.
Definition CURFEW_END_HOUR : Z := 6.

Record GpsInput : Set := {
  current_x : pyfloat;
  current_y : pyfloat;
  current_hour : Z
}.

(** The [violations] list of the answer; its status is always "success". *)
Definition api_check_violation (data : GpsInput) : list string :=
  let violations := [] in
  let violations :=
    if negb (float_le SAFE_ZONE_X_MIN (current_x data)
             && float_le (current_x data) SAFE_ZONE_X_MAX
             && (float_le SAFE_ZONE_Y_MIN (current_y data)
                 && float_le (current_y data) SAFE_ZONE_Y_MAX))
    then violations ++
         ["Location Violation: Offender is outside the designated safe zone."]
    else violations in
  let violations :=
    if (CURFEW_START_HOUR <=? current_hour data)
       || (current_hour data <? CURFEW_END_HOUR)
    then violations ++ ["Curfew Violation: Monitored during curfew hours."]
    else violations in
  let violations :=
    if negb (truthy violations) then violations ++ ["Status: Compliant"]
    else violations in
  violations.

End Corrections.

(** ** Specification vocabulary for the sentencing advisor *)

Definition minimum_of (m : Z) (l : list Z) : Prop := m ∈ l ∧ Forall (Z.le m) l.

Definition maximum_of (m : Z) (l : list Z) : Prop := m ∈ l ∧ Forall (Z.ge m) l.

(** [t / 10] is a multiple of one tenth nearest to [total / n]. *)
Definition nearest_tenth (t total n : Z) : Prop :=
  2 * Z.abs (10 * total - t * n) <= n.

(** [st] holds the statistics of [cases]: the mean of their sentences
    rounded to one decimal place, the extremes and the count. *)
Definition summarises (cases : list HistoricalCase) (st : Stats) : Prop :=
  let months := map sentence_given_months cases in
  (exists t, of_tenths t = Some (recommendation_months st) /\
             nearest_tenth t (py_sum months) (py_len months)) /\
  minimum_of (min_sentence st) months /\
  maximum_of (max_sentence st) months /\
  case_count st = py_len cases.

(** [min_sentence <= recommendation_months <= max_sentence], compared
    exactly as Python compares an integer with a float. *)
Definition within_range (st : Stats) : Prop :=
  (inject_Z (min_sentence st) <= to_Q (recommendation_months st)
   <= inject_Z (max_sentence st))%Q.

(** The data-model invariant of a historical case (severity in [1,5], a
    positive sentence), and a table whose sentences add up to less than
    [2^47] months, so that every mean is far inside the range where
    binary64 is exact on integers. *)
Definition well_formed_case (h : HistoricalCase) : Prop :=
  1 <= severity_score h <= 5 /\ 1 <= sentence_given_months h.

Definition well_formed (ds : list HistoricalCase) : Prop :=
  Forall well_formed_case ds /\
  py_sum (map sentence_given_months ds) < 2 ^ 47.

(** ** The three tiers of [recommend_sentence] *)

(** Tier 1: the cases of crime type [c] at exactly severity [s]. *)
Definition direct_cases (ds : list HistoricalCase) (c : string) (s : Z)
  : list HistoricalCase :=
  filter (fun h => crime_type h = c /\ severity_score h = s) ds.

(** Tier 2: [s'] is a neighbour of [s] inside the range [1,5]. *)
Definition adjacent_severity (s s' : Z) : Prop :=
  (s' = s - 1 \/ s' = s + 1) /\ 1 <= s' <= 5.

#[global] Instance adjacent_severity_dec s s' : Decision (adjacent_severity s s').
Proof. unfold adjacent_severity. apply _. Defined.

(** The pooled cases of crime type [c] at both in-range neighbours of [s]. *)
Definition pooled_cases (ds : list HistoricalCase) (c : string) (s : Z)
  : list HistoricalCase :=
  filter (fun h => crime_type h = c /\ adjacent_severity s (severity_score h)) ds.


(** Some historical case has exactly crime type [c] and severity [s]. *)
Definition has_direct_match (ds : list HistoricalCase) (c : string) (s : Z)
  : Prop :=
  exists h, h ∈ ds /\ crime_type h = c /\ severity_score h = s.

(** Some historical case of crime type [c] lies at an in-range neighbour
    of severity [s]. *)
Definition has_adjacent_match (ds : list HistoricalCase) (c : string) (s : Z)
  : Prop :=
  exists h, h ∈ ds /\ crime_type h = c /\ adjacent_severity s (severity_score h).

(** The direct-match answer over [cases]. *)
Definition direct_match_result (cases : list HistoricalCase)
    (r : py Recommendation) : Prop :=
  exists st,
    r = Return {| status := "Success"; data := Some st;
                  basis := "Direct match from " +:+ pretty (py_len cases)
                           +:+ " historical case(s)." |} /\
    summarises cases st.

(** The estimated-match answer over [cases]. *)
Definition estimated_match_result (cases : list HistoricalCase)
    (r : py Recommendation) : Prop :=
  exists st,
    r = Return {| status := "Success (Estimated)"; data := Some st;
                  basis := "Estimate based on " +:+ pretty (py_len cases)
                           +:+ " case(s) with similar severity." |} /\
    summarises cases st.

(** The no-data answer. *)
Definition no_data : Recommendation :=
  {| status := "Failed"; data := None;
     basis := "No historical data found for this crime type." |}.

(** A result either carries statistics under one of the two success
    statuses, or is the no-data answer without statistics. *)
Definition well_formed_result (r : Recommendation) : Prop :=
  ((status r = "Success" \/ status r = "Success (Estimated)") /\
   exists st, data r = Some st /\ 0 < case_count st) \/
  r = no_data.

(** The cases that an out-of-range severity can still reach: severity 1
    from the query 0, and severity 5 from the query 6. *)
Definition edge_cases (ds : list HistoricalCase) (c : string) (s : Z)
  : list HistoricalCase :=
  filter (fun h => crime_type h = c /\
                   ((s = 0 /\ severity_score h = 1) \/
                    (s = 6 /\ severity_score h = 5))) ds.

(** Twenty cases of one crime type and severity whose sentences, nineteen
    of one month and one of two, have the mean 21/20 = 1.05. *)
Definition mean_1_05_cases : list HistoricalCase :=
  replicate 19 (hc "P" "Perjury" 1 1) ++ [hc "Q" "Perjury" 1 2].

(** Four cases whose sentences have the mean 13/4 = 3.25. *)
Definition mean_3_25_cases : list HistoricalCase :=
  [hc "A" "Perjury" 1 3; hc "B" "Perjury" 1 3;
   hc "C" "Perjury" 1 3; hc "D" "Perjury" 1 4].

(** [r] is the double written as the decimal [t / 10]: it is what the
    conversion of that decimal to binary64 yields, and its exact value
    differs from [t / 10] by at most [t / 10 * 2^-53]. *)
Definition is_decimal_tenths (r : float) (t : Z) : Prop :=
  of_tenths t = Some r /\
  (Qabs (to_Q r - (t # 10)) <= t # 90071992547409920)%Q.

(** [r] is the mean of [months] rounded to one decimal place: the double
    written [t / 10] for an integer [t] with [|10 * mean - t| <= 1/2]. *)
Definition rounded_mean (r : float) (months : list Z) : Prop :=
  exists t, nearest_tenth t (py_sum months) (py_len months) /\
            is_decimal_tenths r t.

(** The answer [r] carries statistics whose recommendation is the mean of
    the sentences of [cases] rounded to one decimal place. *)
Definition recommends_rounded_mean (cases : list HistoricalCase)
    (r : py Recommendation) : Prop :=
  exists rec st,
    r = Return rec /\ data rec = Some st /\
    rounded_mean (recommendation_months st)
                 (map sentence_given_months cases).

(** ** Specification vocabulary for the registry *)

(** [rq] is a status update addressed to the case [id]. *)
Definition updates_status_of (id : string) (rq : Registry.Request) : Prop :=
  match rq with
  | Registry.UpdateStatus id' _ => id' = id
  | _ => False
  end.

(** ** Further specification vocabulary *)

(** A historical case that a query for crime type [c] at severity [s] can
    use: same crime type, and the severity itself or an in-range
    neighbour. *)
Definition relevant (c : string) (s : Z) (h : HistoricalCase) : Prop :=
  crime_type h = c /\
  (severity_score h = s \/ adjacent_severity s (severity_score h)).

(** The case that a registry request addresses, if any. *)
Definition target (rq : Registry.Request) : option string :=
  match rq with
  | Registry.GetAllCases => None
  | Registry.CreateCase id _ => Some id
  | Registry.GetCase id => Some id
  | Registry.AddEvidence id _ _ => Some id
  | Registry.UpdateStatus id _ => Some id
  end.

(** The evidence entries that the requests [rqs] submit for the case [id],
    in the order of the requests. *)
Fixpoint submitted_evidence (id : string) (rqs : list Registry.Request)
  : list Registry.EvidenceEntry :=
  match rqs with
  | [] => []
  | Registry.AddEvidence id' item now :: rqs' =>
      if decide (id' = id)
      then {| Registry.evidence_item := item; Registry.timestamp := now |}
           :: submitted_evidence id rqs'
      else submitted_evidence id rqs'
  | _ :: rqs' => submitted_evidence id rqs'
  end.

(** The status that the last status update for the case [id] among [rqs]
    asks for, or [current] when there is none. *)
Fixpoint last_status (id : string) (rqs : list Registry.Request)
    (current : string) : string :=
  match rqs with
  | [] => current
  | Registry.UpdateStatus id' new_status :: rqs' =>
      last_status id rqs' (if decide (id' = id) then new_status else current)
  | _ :: rqs' => last_status id rqs' current
  end.

(** The identifiers that the requests [rqs] ask to create. *)
Fixpoint created_ids (rqs : list Registry.Request) : gset string :=
  match rqs with
  | [] => ∅
  | Registry.CreateCase id _ :: rqs' => {[ id ]} ∪ created_ids rqs'
  | _ :: rqs' => created_ids rqs'
  end.

(** Every record of the registry is stored under its own identifier. *)
Definition keyed_by_case_id (db : odict Registry.CriminalCase) : Prop :=
  forall id c, db !! id = Some c -> Registry.case_id c = id.

(** A coordinate is a number between 10 and 90, bounds included. *)
Definition inside_safe_zone (p : Corrections.pyfloat) : Prop :=
  match p with
  | Corrections.Finite x => (10 <= to_Q x <= 90)%Q
  | _ => False
  end.

(** The hour falls in the curfew, which runs from 22 to 6. *)
Definition in_curfew (hour : Z) : Prop := 22 <= hour \/ hour < 6.

(** The float is infinite or not a number. *)
Definition not_finite (p : Corrections.pyfloat) : Prop :=
  match p with
  | Corrections.Finite _ => False
  | _ => True
  end.

(** The request [rq] registers a new case in [db]: it asks to create an
    identifier that is not registered yet. *)
Definition registers (rq : Registry.Request)
    (db : odict Registry.CriminalCase) : Prop :=
  match rq with
  | Registry.CreateCase id _ => db !! id = None
  | _ => False
  end.

(** ** Facts about the rounding primitives *)

Example rhe_div_examples :
  rhe_div 5 2 = 2 /\ rhe_div 7 2 = 4 /\ rhe_div 325 10 = 32 /\
  rhe_div 335 10 = 34 /\ rhe_div 7 3 = 2 /\ rhe_div 8 3 = 3.
Proof. repeat split; reflexivity. Qed.

Example truediv_7_2 : truediv 7 2 = Return (Float false (7 * 2 ^ 50) (-51)).
Proof. vm_compute. reflexivity. Qed.

Example truediv_1_10 :
  truediv 1 10 = Return (Float false 7205759403792794 (-56)).
Proof. vm_compute. reflexivity. Qed.

Example of_tenths_273 :
  of_tenths 273 = Some (Float false 7684266864200909 (-48)).
Proof. vm_compute. reflexivity. Qed.

Section RoundHalfEven.

Variables a b : Z.
Hypothesis Hb : 0 < b.

Lemma rhe_div_error : - b <= 2 * (a - rhe_div a b * b) <= b.
Proof.
  unfold rhe_div.
  pose proof (Z.div_mod a b ltac:(lia)) as Hdm.
  pose proof (Z.mod_pos_bound a b Hb) as Hr.
  destruct (Z.ltb_spec (2 * (a mod b)) b);
    [|destruct (Z.ltb_spec b (2 * (a mod b)));
      [|destruct (Z.even (a / b))]]; nia.
Qed.

Lemma rhe_div_ge k : k * b <= a -> k <= rhe_div a b.
Proof.
  intros Hk. pose proof rhe_div_error as He.
  assert (2 * (k - rhe_div a b) * b <= b) by nia.
  nia.
Qed.

Lemma rhe_div_le k : a <= k * b -> rhe_div a b <= k.
Proof.
  intros Hk. pose proof rhe_div_error as He.
  assert (2 * (rhe_div a b - k) * b <= b) by nia.
  nia.
Qed.

Lemma rhe_div_tie k :
  2 * a = (2 * k + 1) * b ->
  rhe_div a b = if Z.even k then k else k + 1.
Proof.
  intros Hk. unfold rhe_div.
  pose proof (Z.div_mod a b ltac:(lia)) as Hdm.
  pose proof (Z.mod_pos_bound a b Hb) as Hr.
  assert (a / b = k) as Hq by nia.
  assert (2 * (a mod b) = b) as Hm by nia.
  rewrite Hq.
  destruct (Z.ltb_spec (2 * (a mod b)) b); [lia|].
  destruct (Z.ltb_spec b (2 * (a mod b))); [lia|].
  reflexivity.
Qed.

End RoundHalfEven.

Lemma rhe_div_scale a b c :
  0 < b -> 0 < c -> rhe_div (a * c) (b * c) = rhe_div a b.
Proof.
  intros Hb Hc. unfold rhe_div.
  rewrite Z.div_mul_cancel_r by lia.
  rewrite Z.mul_mod_distr_r by lia.
  pose proof (Z.mod_pos_bound a b Hb) as Hr.
  destruct (Z.ltb_spec (2 * (a mod b * c)) (b * c)),
           (Z.ltb_spec (2 * (a mod b)) b); try nia; try reflexivity.
  destruct (Z.ltb_spec (b * c) (2 * (a mod b * c))),
           (Z.ltb_spec b (2 * (a mod b))); try nia; reflexivity.
Qed.

Lemma floor_log2_ratio_range p d :
  0 < d <= p ->
  0 <= floor_log2_ratio p d <= Z.log2 p /\ d * 2 ^ floor_log2_ratio p d <= p.
Proof.
  intros [Hd Hp]. unfold floor_log2_ratio, pow2_le_ratio.
  pose proof (Z.log2_le_mono d p Hp) as Hmono.
  pose proof (Z.log2_nonneg d) as Hld.
  pose proof (Z.log2_spec d Hd) as [_ Hdu].
  pose proof (Z.log2_spec p ltac:(lia)) as [Hpl _].
  set (k := Z.log2 p - Z.log2 d) in *.
  destruct (Z.leb_spec 0 k); [|lia].
  destruct (Z.leb_spec (d * 2 ^ k) p) as [Hle|Hgt]; [lia|].
  assert (k <> 0) as Hk0 by (intros E; rewrite E, Z.pow_0_r in Hgt; lia).
  split; [lia|].
  assert (2 ^ Z.succ (Z.log2 d) * 2 ^ (k - 1) = 2 ^ Z.log2 p) as Hpow.
  { rewrite <- Z.pow_add_r by lia. f_equal. lia. }
  assert (0 < 2 ^ (k - 1)) by (apply Z.pow_pos_nonneg; lia).
  nia.
Qed.

(** Rounding a ratio [1 <= p / d] with [p < 2^51]: the result is a normal
    number with a negative exponent, within relative error [2^-53], and
    rounding never crosses a multiple [a / 4] of one quarter. *)
Lemma round_pos_small p d :
  0 < d <= p -> p < 2 ^ 51 ->
  exists m K,
    round_pos p d = Some (m, - K) /\ 0 < K /\
    2 ^ 53 * Z.abs (p * 2 ^ K - m * d) <= p * 2 ^ K /\
    (forall a, a * d <= 4 * p -> a * 2 ^ K <= 4 * m) /\
    (forall a, 4 * p <= a * d -> 4 * m <= a * 2 ^ K).
Proof.
  intros Hdp Hp.
  destruct (floor_log2_ratio_range p d Hdp) as [[HL0 HLp] HL].
  assert (Z.log2 p < 51) as Hlog by (apply Z.log2_lt_pow2; lia).
  unfold round_pos, prec, emin, emax.
  set (L := floor_log2_ratio p d) in *.
  replace (Z.max (L - (53 - 1)) (-1074)) with (- (52 - L)) by lia.
  set (K := 52 - L).
  assert (2 <= K <= 52) as HK by lia.
  destruct (Z.leb_spec 0 (- K)); [lia|].
  rewrite Z.opp_involutive.
  set (P := 2 ^ K).
  assert (0 < P) as HP by (apply Z.pow_pos_nonneg; lia).
  assert (d * 2 ^ 52 <= p * P) as Hscale.
  { replace (2 ^ 52) with (2 ^ L * P)
      by (unfold P; rewrite <- Z.pow_add_r by lia; f_equal; lia).
    nia. }
  pose proof (rhe_div_error (p * P) d ltac:(lia)) as Herr.
  pose proof (rhe_div_ge (p * P) d ltac:(lia)) as Hge.
  pose proof (rhe_div_le (p * P) d ltac:(lia)) as Hle.
  set (m := rhe_div (p * P) d) in *.
  assert (P = 4 * 2 ^ (K - 2)) as HP4.
  { unfold P. replace K with (2 + (K - 2)) at 1 by lia.
    rewrite Z.pow_add_r by lia. reflexivity. }
  assert (0 < 2 ^ (K - 2)) as HQ by (apply Z.pow_pos_nonneg; lia).
  set (Q := 2 ^ (K - 2)) in *.
  destruct (Z.eqb_spec m (2 ^ 53)) as [Hm|Hm].
  - (* the mantissa rounded up to the next binade *)
    exists (2 ^ (53 - 1)), (K - 1).
    replace (- K + 1) with (- (K - 1)) by lia.
    destruct (Z.ltb_spec 971 (- (K - 1))); [lia|].
    assert (P = 2 * 2 ^ (K - 1)) as HP2.
    { unfold P. replace K with (Z.succ (K - 1)) at 1 by lia.
      apply Z.pow_succ_r. lia. }
    set (P' := 2 ^ (K - 1)) in *.
    change (2 ^ (53 - 1)) with 4503599627370496.
    change (2 ^ 53) with 9007199254740992 in *.
    change (2 ^ 52) with 4503599627370496 in *.
    split; [reflexivity|]. split; [lia|].
    split; [lia|]. split.
    + intros a Ha. specialize (Hge (a * Q) ltac:(nia)). lia.
    + intros a Ha. specialize (Hle (a * Q) ltac:(nia)). lia.
  - exists m, K.
    destruct (Z.ltb_spec 971 (- K)); [lia|].
    change (2 ^ 53) with 9007199254740992 in *.
    change (2 ^ 52) with 4503599627370496 in *.
    split; [reflexivity|]. split; [lia|].
    split; [lia|]. split.
    + intros a Ha. specialize (Hge (a * Q) ltac:(nia)). lia.
    + intros a Ha. specialize (Hle (a * Q) ltac:(nia)). lia.
Qed.

Lemma to_Q_between m K a b :
  0 < K -> a * 2 ^ K <= m -> m <= b * 2 ^ K ->
  (inject_Z a <= to_Q (Float false m (- K)) <= inject_Z b)%Q.
Proof.
  intros HK Ha Hb. unfold to_Q. cbn [fexp fmant fsign].
  destruct (Z.leb_spec 0 (- K)); [lia|].
  rewrite Z.opp_involutive.
  assert (0 < 2 ^ K) as HP by (apply Z.pow_pos_nonneg; lia).
  unfold Qle. cbn [Qnum Qden inject_Z].
  rewrite Z2Pos.id by exact HP. lia.
Qed.

(** The composition [round(p / d, 1)] of [get_stats] on a mean of at least
    one and below [2^47]: it returns the double written [t / 10] for an
    integer [t] nearest to [10 * p / d]; it stays between any two integers
    that enclose [p / d]; and when [p / d] is a multiple [a / 4] of one
    quarter, which binary64 holds exactly, [t] is [10 * a / 4] rounded
    with ties to even. *)
Lemma round_mean_spec p d :
  0 < d <= p -> p < 2 ^ 47 ->
  exists x r t,
    truediv p d = Return x /\ round1 x = Return r /\
    of_tenths t = Some r /\
    2 * Z.abs (10 * p - t * d) <= d /\
    (forall a b, a * d <= p -> p <= b * d ->
                 (inject_Z a <= to_Q r <= inject_Z b)%Q) /\
    (forall a, 4 * p = a * d -> t = rhe_div (10 * a) 4).
Proof.
  intros Hdp Hp.
  destruct (round_pos_small p d Hdp ltac:(lia)) as (m & K & Hr & HK & Herr & Hge & Hle).
  set (t := rhe_div (10 * m) (2 ^ K)).
  assert (0 < 2 ^ K) as HP by (apply Z.pow_pos_nonneg; lia).
  pose proof (Hge 4 ltac:(lia)) as Hm1.
  pose proof (Hle (4 * p) ltac:(nia)) as Hmp.
  assert (10 <= t) as Ht10 by (apply rhe_div_ge; lia).
  assert (t <= 10 * p) as Htp by (apply rhe_div_le; nia).
  destruct (round_pos_small t 10 ltac:(lia) ltac:(lia))
    as (m' & K' & Hr' & HK' & _ & Hge' & Hle').
  exists (Float false m (- K)), (Float false m' (- K')), t.
  assert (of_ratio false t 10 = Some (Float false m' (- K'))) as Hof.
  { unfold of_ratio. destruct (Z.eqb_spec t 0); [lia|]. now rewrite Hr'. }
  split; [|split; [|split; [|split; [|split]]]].
  - unfold truediv. destruct (Z.eqb_spec d 0); [lia|].
    destruct (Z.ltb_spec p 0); [lia|]. destruct (Z.ltb_spec d 0); [lia|].
    rewrite !Z.abs_eq by lia. cbn [xorb].
    unfold of_ratio. destruct (Z.eqb_spec p 0); [lia|]. now rewrite Hr.
  - unfold round1, tenths_of. cbn [fsign fexp fmant].
    destruct (Z.leb_spec 0 (- K)); [lia|].
    rewrite Z.opp_involutive. fold t. now rewrite Hof.
  - unfold of_tenths. destruct (Z.ltb_spec t 0); [lia|].
    now rewrite Z.abs_eq by lia.
  - pose proof (rhe_div_error (10 * m) (2 ^ K) HP) as Ht. fold t in Ht.
    change (2 ^ 53) with 9007199254740992 in Herr.
    change (2 ^ 47) with 140737488355328 in Hp.
    set (P := 2 ^ K) in *.
    assert (Z.abs (20 * p - 2 * t * d) * P
            <= 20 * Z.abs (p * P - m * d) + d * P) as Htri by nia.
    assert (9007199254740992 * (Z.abs (20 * p - 2 * t * d) * P)
            < 9007199254740992 * ((d + 1) * P)) by nia.
    nia.
  - intros a b Ha Hb. apply (to_Q_between m' K' a b HK').
    + assert (a * 10 <= t) as Hat.
      { apply rhe_div_ge; [lia|]. specialize (Hge (4 * a) ltac:(lia)). nia. }
      specialize (Hge' (4 * a) ltac:(lia)). lia.
    + assert (t <= b * 10) as Hbt.
      { apply rhe_div_le; [lia|]. specialize (Hle (4 * b) ltac:(lia)). nia. }
      specialize (Hle' (4 * b) ltac:(lia)). lia.
  - intros a Ha.
    assert (4 * m = a * 2 ^ K) as Hexact.
    { specialize (Hge a ltac:(lia)). specialize (Hle a ltac:(lia)). lia. }
    unfold t. rewrite <- (rhe_div_scale (10 * m) (2 ^ K) 4) by lia.
    rewrite <- (rhe_div_scale (10 * a) 4 (2 ^ K)) by lia.
    f_equal; lia.
Qed.

(** ** Facts about the list builtins *)

Lemma fold_add_shift l a : fold_left Z.add l a = a + py_sum l.
Proof.
  unfold py_sum. revert a. induction l as [|x l IH]; intros a; cbn.
  - lia.
  - rewrite (IH (a + x)), (IH (0 + x)). lia.
Qed.

Lemma py_sum_cons x l : py_sum (x :: l) = x + py_sum l.
Proof. unfold py_sum at 1. cbn. apply fold_add_shift. Qed.

Lemma py_len_cons {A} (x : A) l : py_len (x :: l) = 1 + py_len l.
Proof. unfold py_len. cbn [length]. lia. Qed.

Lemma py_len_nonneg {A} (l : list A) : 0 <= py_len l.
Proof. unfold py_len. lia. Qed.

Lemma py_sum_bounds lo hi l :
  Forall (fun x => lo <= x <= hi) l ->
  lo * py_len l <= py_sum l <= hi * py_len l.
Proof.
  induction 1 as [|x l Hx _ IH].
  - unfold py_sum, py_len. cbn. lia.
  - rewrite py_sum_cons, py_len_cons. lia.
Qed.

Lemma fold_min_spec l x : minimum_of (fold_left Z.min l x) (x :: l).
Proof.
  revert x. induction l as [|y l IH]; intros x; cbn.
  - split; [left|repeat constructor; lia].
  - destruct (IH (Z.min x y)) as [Hin Hall].
    apply Forall_cons in Hall as [Hm Hall]. split.
    + apply elem_of_cons in Hin as [->|Hin].
      * destruct (Z.min_spec x y) as [[_ ->]|[_ ->]];
          [left|right; left].
      * right; right; exact Hin.
    + repeat constructor; [lia|lia|exact Hall].
Qed.

Lemma fold_max_spec l x : maximum_of (fold_left Z.max l x) (x :: l).
Proof.
  revert x. induction l as [|y l IH]; intros x; cbn.
  - split; [left|repeat constructor; lia].
  - destruct (IH (Z.max x y)) as [Hin Hall].
    apply Forall_cons in Hall as [Hm Hall]. split.
    + apply elem_of_cons in Hin as [->|Hin].
      * destruct (Z.max_spec x y) as [[_ ->]|[_ ->]];
          [right; left|left].
      * right; right; exact Hin.
    + repeat constructor; [lia|lia|exact Hall].
Qed.

Lemma extremes_enclose_sum lo hi l :
  minimum_of lo l -> maximum_of hi l ->
  lo * py_len l <= py_sum l <= hi * py_len l.
Proof.
  intros [_ Hlo] [_ Hhi]. apply py_sum_bounds.
  rewrite Forall_forall in *. intros x Hx.
  specialize (Hlo x Hx). specialize (Hhi x Hx). lia.
Qed.

(** ** [get_stats] on a non-empty list of plausible sentences *)

Lemma get_stats_spec cases :
  truthy cases = true ->
  Forall (fun h => 1 <= sentence_given_months h) cases ->
  py_sum (map sentence_given_months cases) < 2 ^ 47 ->
  exists st, get_stats cases = Return (Some st) /\
             summarises cases st /\ within_range st /\
             forall a,
               4 * py_sum (map sentence_given_months cases)
               = a * py_len cases ->
               of_tenths (rhe_div (10 * a) 4) = Some (recommendation_months st).
Proof.
  intros Hne Hpos Hsum. unfold get_stats. rewrite Hne. cbn [negb].
  set (sentences := map sentence_given_months cases) in *.
  assert (py_len sentences = py_len cases) as Hlen
    by (unfold py_len, sentences; now rewrite length_map).
  assert (0 < py_len sentences) as Hd
    by (rewrite Hlen; destruct cases; [discriminate|rewrite py_len_cons;
        pose proof (py_len_nonneg cases); lia]).
  assert (py_len sentences <= py_sum sentences) as Hdp.
  { clear - Hpos. subst sentences.
    induction Hpos as [|h l Hh _ IH]; [unfold py_len, py_sum; cbn; lia|].
    cbn [map]. rewrite py_sum_cons, py_len_cons. lia. }
  destruct (round_mean_spec (py_sum sentences) (py_len sentences)
              ltac:(lia) Hsum)
    as (x & r & t & Hx & Hr & Ht & Hnear & Hbetween & Hquarter).
  rewrite Hx. cbn [mbind py_bind]. rewrite Hr. cbn [mbind py_bind].
  destruct sentences as [|s0 ss] eqn:Hs; [unfold py_len in Hd; cbn in Hd; lia|].
  cbn [py_min py_max mbind py_bind].
  pose proof (fold_min_spec ss s0) as Hmin.
  pose proof (fold_max_spec ss s0) as Hmax.
  pose proof (extremes_enclose_sum _ _ _ Hmin Hmax) as [Hlo Hhi].
  eexists. split; [reflexivity|]. split; [|split].
  - unfold summarises. cbn [recommendation_months min_sentence max_sentence case_count].
    fold sentences. rewrite Hs.
    split; [exists t; split; [exact Ht|exact Hnear]|].
    split; [exact Hmin|]. split; [exact Hmax|reflexivity].
  - unfold within_range. cbn [recommendation_months min_sentence max_sentence].
    apply Hbetween; assumption.
  - intros a Ha. cbn [recommendation_months].
    rewrite <- (Hquarter a); [exact Ht|]. rewrite Hlen. exact Ha.
Qed.

(** ** The three tiers of [recommend_sentence], proved *)

Lemma filter_bool_prop {A} (f : A -> bool) (P : A -> Prop)
    `{!forall x, Decision (P x)} (l : list A) :
  (forall x, f x = true <-> P x) -> List.filter f l = filter P l.
Proof.
  intros Hf. induction l as [|x l IH]; [reflexivity|].
  cbn [List.filter]. rewrite filter_cons, IH.
  destruct (decide (P x)) as [HP|HP], (f x) eqn:Hfx; try reflexivity.
  - apply Hf in HP. congruence.
  - apply Hf in Hfx. contradiction.
Qed.

Lemma matching_cases_direct ds c s :
  List.filter (fun h => String.eqb (crime_type h) c
                        && (severity_score h =? s)) ds
  = direct_cases ds c s.
Proof.
  apply filter_bool_prop. intros h.
  rewrite andb_true_iff, String.eqb_eq, Z.eqb_eq. reflexivity.
Qed.

Lemma py_in_adjacent s s' :
  py_in s' (List.filter (fun x => (1 <=? x) && (x <=? 5)) [s - 1; s + 1]) = true
  <-> adjacent_severity s s'.
Proof.
  unfold adjacent_severity, py_in. cbn [List.filter].
  destruct (Z.leb_spec 1 (s - 1)), (Z.leb_spec (s - 1) 5),
           (Z.leb_spec 1 (s + 1)), (Z.leb_spec (s + 1) 5);
    cbn [andb existsb orb];
    rewrite ?orb_true_iff, ?Z.eqb_eq; split; intros; try discriminate; lia.
Qed.

Lemma similar_cases_pooled ds c s :
  List.filter (fun h => String.eqb (crime_type h) c
                 && py_in (severity_score h)
                      (List.filter (fun x => (1 <=? x) && (x <=? 5))
                                   [s - 1; s + 1])) ds
  = pooled_cases ds c s.
Proof.
  apply filter_bool_prop. intros h.
  rewrite andb_true_iff, String.eqb_eq, py_in_adjacent. reflexivity.
Qed.

Lemma truthy_true {A} (l : list A) : truthy l = true <-> l <> [].
Proof. destruct l; cbn; split; congruence. Qed.

Lemma truthy_false {A} (l : list A) : truthy l = false <-> l = [].
Proof. destruct l; cbn; split; congruence. Qed.

Lemma well_formed_filter ds (P : HistoricalCase -> Prop)
    `{!forall h, Decision (P h)} :
  well_formed ds ->
  Forall (fun h => 1 <= sentence_given_months h) (filter P ds) /\
  py_sum (map sentence_given_months (filter P ds)) < 2 ^ 47.
Proof.
  intros [Hall Hsum].
  assert (Forall (fun h => 1 <= sentence_given_months h) (filter P ds) /\
          py_sum (map sentence_given_months (filter P ds))
          <= py_sum (map sentence_given_months ds)) as [? ?]; [|split; [easy|lia]].
  clear Hsum. induction Hall as [|h l [_ Hh] _ [IH1 IH2]].
  - split; [constructor|reflexivity].
  - rewrite filter_cons. destruct (decide (P h)).
    + split; [constructor; assumption|].
      cbn [map]. rewrite !py_sum_cons. lia.
    + split; [assumption|]. cbn [map]. rewrite py_sum_cons. lia.
Qed.

Lemma recommend_direct ds c s :
  well_formed ds -> direct_cases ds c s <> [] ->
  exists st,
    recommend_sentence ds c s
    = Return {| status := "Success"; data := Some st;
                basis := direct_basis (py_len (direct_cases ds c s)) |} /\
    summarises (direct_cases ds c s) st /\ within_range st.
Proof.
  intros Hwf Hne. unfold recommend_sentence.
  rewrite matching_cases_direct.
  pose proof (proj2 (truthy_true _) Hne) as Ht. rewrite Ht.
  destruct (well_formed_filter ds
              (fun h => crime_type h = c /\ severity_score h = s) Hwf)
    as [Hpos Hsum].
  destruct (get_stats_spec _ Ht Hpos Hsum) as (st & Hst & Hsumm & Hrange & _).
  rewrite Hst.
  exists st. cbn [mbind py_bind subscript_case_count].
  pose proof Hsumm as (_ & _ & _ & Hcount). rewrite Hcount.
  split; [reflexivity|split; assumption].
Qed.

Lemma recommend_estimate ds c s :
  well_formed ds -> direct_cases ds c s = [] -> pooled_cases ds c s <> [] ->
  exists st,
    recommend_sentence ds c s
    = Return {| status := "Success (Estimated)"; data := Some st;
                basis := estimate_basis (py_len (pooled_cases ds c s)) |} /\
    summarises (pooled_cases ds c s) st /\ within_range st.
Proof.
  intros Hwf Hnone Hne. unfold recommend_sentence.
  rewrite matching_cases_direct, Hnone. cbn [truthy].
  rewrite similar_cases_pooled.
  pose proof (proj2 (truthy_true _) Hne) as Ht. rewrite Ht.
  destruct (well_formed_filter ds
              (fun h => crime_type h = c /\ adjacent_severity s (severity_score h))
              Hwf) as [Hpos Hsum].
  destruct (get_stats_spec _ Ht Hpos Hsum) as (st & Hst & Hsumm & Hrange & _).
  rewrite Hst.
  exists st. cbn [mbind py_bind subscript_case_count].
  pose proof Hsumm as (_ & _ & _ & Hcount). rewrite Hcount.
  split; [reflexivity|split; assumption].
Qed.

Lemma recommend_no_data ds c s :
  direct_cases ds c s = [] -> pooled_cases ds c s = [] ->
  recommend_sentence ds c s
  = Return {| status := "Failed"; data := None;
              basis := "No historical data found for this crime type." |}.
Proof.
  intros Hnone Hnone'. unfold recommend_sentence.
  rewrite matching_cases_direct, Hnone. cbn [truthy].
  rewrite similar_cases_pooled, Hnone'. reflexivity.
Qed.

Lemma historical_data_well_formed : well_formed historical_data.
Proof.
  split.
  - unfold well_formed_case. repeat constructor; cbn; lia.
  - vm_compute. reflexivity.
Qed.

Lemma direct_cases_nonempty ds c s :
  has_direct_match ds c s <-> direct_cases ds c s <> [].
Proof.
  unfold has_direct_match, direct_cases. split.
  - intros (h & Hin & Hc & Hs) Hnil.
    apply filter_nil_not_elem_of with (x := h) in Hnil; [exact (Hnil Hin)|].
    split; assumption.
  - intros Hne. destruct (filter _ ds) as [|h l] eqn:Hf; [contradiction|].
    assert (h ∈ filter (fun h => crime_type h = c /\ severity_score h = s) ds)
      as Hin by (rewrite Hf; left).
    apply list_elem_of_filter in Hin as [[Hc Hs] Hin]. eauto.
Qed.

Lemma pooled_cases_nonempty ds c s :
  has_adjacent_match ds c s <-> pooled_cases ds c s <> [].
Proof.
  unfold has_adjacent_match, pooled_cases. split.
  - intros (h & Hin & Hc & Hs) Hnil.
    apply filter_nil_not_elem_of with (x := h) in Hnil; [exact (Hnil Hin)|].
    split; assumption.
  - intros Hne. destruct (filter _ ds) as [|h l] eqn:Hf; [contradiction|].
    assert (h ∈ filter (fun h => crime_type h = c /\
                                 adjacent_severity s (severity_score h)) ds)
      as Hin by (rewrite Hf; left).
    apply list_elem_of_filter in Hin as [[Hc Hs] Hin]. eauto.
Qed.

Lemma list_empty_dec {A} (l : list A) : l = [] \/ l <> [].
Proof. destruct l; [left; reflexivity|right; discriminate]. Qed.

(** Every query on a well-formed table falls in exactly one tier. *)
Lemma recommend_cases ds c s :
  well_formed ds ->
  exists r, recommend_sentence ds c s = Return r /\
    ((r = no_data /\ direct_cases ds c s = [] /\ pooled_cases ds c s = []) \/
     exists st cases,
       data r = Some st /\ summarises cases st /\ within_range st /\
       cases <> [] /\
       ((status r = "Success" /\ cases = direct_cases ds c s) \/
        (status r = "Success (Estimated)" /\ direct_cases ds c s = [] /\
         cases = pooled_cases ds c s))).
Proof.
  intros Hwf.
  destruct (list_empty_dec (direct_cases ds c s)) as [Hd|Hd].
  - destruct (list_empty_dec (pooled_cases ds c s)) as [Hp|Hp].
    + eexists. split; [apply recommend_no_data; assumption|].
      left. auto.
    + destruct (recommend_estimate ds c s Hwf Hd Hp) as (st & Hr & Hs & Hw).
      eexists. split; [exact Hr|]. right.
      exists st, (pooled_cases ds c s). cbn. auto 10.
  - destruct (recommend_direct ds c s Hwf Hd) as (st & Hr & Hs & Hw).
    eexists. split; [exact Hr|]. right.
    exists st, (direct_cases ds c s). cbn. auto 10.
Qed.

(** ** The recommendation as a number *)

Lemma of_tenths_accurate t :
  10 <= t < 2 ^ 51 -> exists y, is_decimal_tenths y t.
Proof.
  intros Ht.
  destruct (round_pos_small t 10 ltac:(lia) ltac:(lia))
    as (m & K & Hr & HK & Herr & _ & _).
  exists (Float false m (- K)). split.
  - unfold of_tenths, of_ratio. destruct (Z.ltb_spec t 0); [lia|].
    rewrite Z.abs_eq by lia. destruct (Z.eqb_spec t 0); [lia|].
    now rewrite Hr.
  - assert (0 < 2 ^ K) as HP by (apply Z.pow_pos_nonneg; lia).
    change (2 ^ 53) with 9007199254740992 in Herr.
    apply Qabs_Qle_condition. unfold to_Q. cbn [fsign fexp fmant].
    destruct (Z.leb_spec 0 (- K)); [lia|]. rewrite Z.opp_involutive.
    unfold Qle, Qminus, Qplus, Qopp. cbn [Qnum Qden].
    rewrite !Pos2Z.inj_mul, Z2Pos.id by exact HP.
    set (P := 2 ^ K) in *. split; nia.
Qed.

Lemma nearest_tenth_range t total n :
  0 < n <= total -> total < 2 ^ 47 -> nearest_tenth t total n ->
  10 <= t < 2 ^ 51.
Proof.
  unfold nearest_tenth. intros Hn Htotal Hnear.
  change (2 ^ 47) with 140737488355328 in Htotal.
  change (2 ^ 51) with 2251799813685248. split; nia.
Qed.

Lemma months_at_least_count cases :
  Forall (fun h => 1 <= sentence_given_months h) cases ->
  py_len (map sentence_given_months cases)
  <= py_sum (map sentence_given_months cases).
Proof.
  induction 1 as [|h l Hh _ IH]; [unfold py_len, py_sum; cbn; lia|].
  cbn [map]. rewrite py_sum_cons, py_len_cons. lia.
Qed.

Lemma summarises_rounded_mean cases st :
  cases <> [] ->
  Forall (fun h => 1 <= sentence_given_months h) cases ->
  py_sum (map sentence_given_months cases) < 2 ^ 47 ->
  summarises cases st ->
  rounded_mean (recommendation_months st) (map sentence_given_months cases).
Proof.
  intros Hne Hpos Hsum ((t & Ht & Hnear) & _).
  pose proof (months_at_least_count cases Hpos) as Hlen.
  assert (0 < py_len (map sentence_given_months cases)) as Hn.
  { destruct cases as [|h cases']; [contradiction|]. cbn [map].
    rewrite py_len_cons.
    pose proof (py_len_nonneg (map sentence_given_months cases')). lia. }
  pose proof (nearest_tenth_range _ _ _ (conj Hn Hlen) Hsum Hnear) as Hrange.
  destruct (of_tenths_accurate t Hrange) as (y & Hy & Hacc).
  rewrite Ht in Hy. injection Hy as <-.
  exists t. split; [exact Hnear|]. split; [exact Ht|exact Hacc].
Qed.

Lemma recommend_direct_rounded_mean ds c s :
  well_formed ds -> direct_cases ds c s <> [] ->
  recommends_rounded_mean (direct_cases ds c s) (recommend_sentence ds c s).
Proof.
  intros Hwf Hne.
  destruct (recommend_direct ds c s Hwf Hne) as (st & Hr & Hs & _).
  destruct (well_formed_filter ds
              (fun h => crime_type h = c /\ severity_score h = s) Hwf)
    as [Hpos Hsum].
  eexists _, st. split; [exact Hr|]. split; [reflexivity|].
  now apply summarises_rounded_mean.
Qed.

Lemma recommend_estimate_rounded_mean ds c s :
  well_formed ds -> direct_cases ds c s = [] -> pooled_cases ds c s <> [] ->
  recommends_rounded_mean (pooled_cases ds c s) (recommend_sentence ds c s).
Proof.
  intros Hwf Hd Hne.
  destruct (recommend_estimate ds c s Hwf Hd Hne) as (st & Hr & Hs & _).
  destruct (well_formed_filter ds
              (fun h => crime_type h = c /\
                        adjacent_severity s (severity_score h)) Hwf)
    as [Hpos Hsum].
  eexists _, st. split; [exact Hr|]. split; [reflexivity|].
  now apply summarises_rounded_mean.
Qed.

(** ** [get_stats] is only ever called on a non-empty list *)

Lemma get_stats_nonempty cases :
  truthy cases = true ->
  (exists st, get_stats cases = Return (Some st) /\
              case_count st = py_len cases) \/
  get_stats cases = Raise OverflowError.
Proof.
  intros Hne. unfold get_stats. rewrite Hne. cbn [negb].
  destruct cases as [|h cases]; [discriminate|]. cbn [map].
  unfold truediv.
  destruct (Z.eqb_spec (py_len (sentence_given_months h
                                :: map sentence_given_months cases)) 0) as [E|_].
  { rewrite py_len_cons in E.
    pose proof (py_len_nonneg (map sentence_given_months cases)). lia. }
  destruct (of_ratio _ _ _) as [x|]; [|right; reflexivity].
  cbn [mbind py_bind]. unfold round1.
  destruct (of_ratio _ _ _) as [y|]; [|right; reflexivity].
  cbn [mbind py_bind py_min py_max]. left. eexists. split; reflexivity.
Qed.

Lemma recommend_raises_only_overflow ds c s e :
  recommend_sentence ds c s = Raise e -> e = OverflowError.
Proof.
  unfold recommend_sentence. cbv zeta.
  rewrite matching_cases_direct, similar_cases_pooled.
  destruct (truthy (direct_cases ds c s)) eqn:Ht.
  - destruct (get_stats_nonempty _ Ht) as [(st & Hst & _)|Hst];
      rewrite Hst; cbn [mbind py_bind subscript_case_count]; congruence.
  - destruct (truthy (pooled_cases ds c s)) eqn:Ht'; [|congruence].
    destruct (get_stats_nonempty _ Ht') as [(st & Hst & _)|Hst];
      rewrite Hst; cbn [mbind py_bind subscript_case_count]; congruence.
Qed.

Lemma py_len_positive {A} (l : list A) : l <> [] -> 0 < py_len l.
Proof.
  destruct l; [contradiction|]. intros _. rewrite py_len_cons.
  pose proof (py_len_nonneg l). lia.
Qed.

Lemma recommend_well_formed_result ds c s :
  well_formed ds ->
  exists r, recommend_sentence ds c s = Return r /\ well_formed_result r.
Proof.
  intros Hwf. destruct (recommend_cases ds c s Hwf) as (r & Hr & Hcases).
  exists r. split; [exact Hr|].
  destruct Hcases as [(-> & _)|(st & cases & Hd & Hs & _ & Hne & Hst)].
  - right. reflexivity.
  - left. split; [destruct Hst as [[? _]|[? _]]; auto|].
    exists st. split; [exact Hd|].
    destruct Hs as (_ & _ & _ & ->). now apply py_len_positive.
Qed.

Lemma recommend_within_range ds c s :
  well_formed ds ->
  exists r, recommend_sentence ds c s = Return r /\
            (status r <> "Failed" ->
             exists st, data r = Some st /\ within_range st).
Proof.
  intros Hwf. destruct (recommend_cases ds c s Hwf) as (r & Hr & Hcases).
  exists r. split; [exact Hr|]. intros Hstatus.
  destruct Hcases as [(-> & _)|(st & cases & Hd & _ & Hw & _)].
  - contradiction Hstatus. reflexivity.
  - exists st. auto.
Qed.

(** ** The claims about the sentencing advisor *)

Ltac historical_well_formed :=
  split; [unfold well_formed_case; repeat constructor; cbn; lia
         |vm_compute; reflexivity].

(** C1. For every query with at least one historical case of exactly that
    crime type and severity, [recommend_sentence] returns status "Success"
    with the mean of exactly the matching cases' sentences rounded to one
    decimal place, their minimum, their maximum, their number, and the basis
    "Direct match from {count} historical case(s).".  The recommendation is
    the double written t/10 for an integer t with |10 * mean - t| <= 1/2,
    and its exact value is within t/10 * 2^-53 of t/10.  This holds on
    every well-formed table and on [historical_data], where the query
    ("Theft", 2) yields the float 3.5 (exactly 7/2), 3, 4 and 2. *)
Theorem direct_match_recommendation :
  (forall ds c s,
     well_formed ds -> has_direct_match ds c s ->
     direct_match_result (direct_cases ds c s) (recommend_sentence ds c s) /\
     recommends_rounded_mean (direct_cases ds c s)
                             (recommend_sentence ds c s)) /\
  (forall c s,
     has_direct_match historical_data c s ->
     direct_match_result (direct_cases historical_data c s)
                         (api_recommend_sentence c s) /\
     recommends_rounded_mean (direct_cases historical_data c s)
                             (api_recommend_sentence c s)) /\
  (api_recommend_sentence "Theft" 2
   = Return {| status := "Success";
               data := Some {| recommendation_months :=
                                 Float false 7881299347898368 (-51);
                               min_sentence := 3; max_sentence := 4;
                               case_count := 2 |};
               basis := "Direct match from 2 historical case(s)." |} /\
   of_tenths 35 = Some (Float false 7881299347898368 (-51)) /\
   (to_Q (Float false 7881299347898368 (-51)) == 35 # 10)%Q).
Proof.
  assert (forall ds c s,
     well_formed ds -> has_direct_match ds c s ->
     direct_match_result (direct_cases ds c s) (recommend_sentence ds c s) /\
     recommends_rounded_mean (direct_cases ds c s)
                             (recommend_sentence ds c s))
    as Hgen.
  { intros ds c s Hwf Hm. apply direct_cases_nonempty in Hm. split.
    - destruct (recommend_direct ds c s Hwf Hm) as (st & Hr & Hs & _).
      exists st. split; [exact Hr|exact Hs].
    - now apply recommend_direct_rounded_mean. }
  split; [exact Hgen|]. split.
  - intros c s. apply Hgen. exact historical_data_well_formed.
  - split; [vm_compute; reflexivity|]. split; [vm_compute; reflexivity|].
    reflexivity.
Qed.

Lemma direct_match_recommendation_witness :
  has_direct_match historical_data "Theft" 2 /\
  direct_match_result (direct_cases historical_data "Theft" 2)
                      (recommend_sentence historical_data "Theft" 2) /\
  recommends_rounded_mean (direct_cases historical_data "Theft" 2)
                          (recommend_sentence historical_data "Theft" 2).
Proof.
  assert (has_direct_match historical_data "Theft" 2) as Hm.
  { exists (hc "HN001" "Theft" 2 3). split; [left|split; reflexivity]. }
  split; [exact Hm|].
  apply (proj1 direct_match_recommendation); [historical_well_formed|exact Hm].
Defined.

(** C2. For every query without an exact match but with a historical case
    of the same crime type at severity s-1 or s+1 (a neighbour counts only
    inside [1,5]), [recommend_sentence] returns status "Success (Estimated)"
    with the statistics of the pooled cases at both neighbours, each case
    weighing the same; the recommendation is the double written t/10 for
    an integer t with |10 * mean - t| <= 1/2, within t/10 * 2^-53 of t/10.
    ("Burglary", 3) pools the severity-4 sentences 24, 30 and 28 into the
    float 27.3 (within 2^-49 of 273/10), 24, 30 and 3, and a table with one
    case on either side pools both into the float 15.0. *)
Theorem estimated_match_recommendation :
  (forall ds c s,
     well_formed ds -> ~ has_direct_match ds c s -> has_adjacent_match ds c s ->
     estimated_match_result (pooled_cases ds c s) (recommend_sentence ds c s) /\
     recommends_rounded_mean (pooled_cases ds c s)
                             (recommend_sentence ds c s)) /\
  (forall c s,
     ~ has_direct_match historical_data c s ->
     has_adjacent_match historical_data c s ->
     estimated_match_result (pooled_cases historical_data c s)
                            (api_recommend_sentence c s) /\
     recommends_rounded_mean (pooled_cases historical_data c s)
                             (api_recommend_sentence c s)) /\
  (api_recommend_sentence "Burglary" 3
   = Return {| status := "Success (Estimated)";
               data := Some {| recommendation_months :=
                                 Float false 7684266864200909 (-48);
                               min_sentence := 24; max_sentence := 30;
                               case_count := 3 |};
               basis := "Estimate based on 3 case(s) with similar severity." |} /\
   of_tenths 273 = Some (Float false 7684266864200909 (-48)) /\
   (Qabs (to_Q (Float false 7684266864200909 (-48)) - (273 # 10))
    <= 1 # 562949953421312)%Q) /\
  (recommend_sentence [hc "X1" "Arson" 2 10; hc "X2" "Arson" 4 20] "Arson" 3
   = Return {| status := "Success (Estimated)";
               data := Some {| recommendation_months :=
                                 Float false 8444249301319680 (-49);
                               min_sentence := 10; max_sentence := 20;
                               case_count := 2 |};
               basis := "Estimate based on 2 case(s) with similar severity." |} /\
   of_tenths 150 = Some (Float false 8444249301319680 (-49)) /\
   (to_Q (Float false 8444249301319680 (-49)) == 15)%Q).
Proof.
  assert (forall ds c s,
     well_formed ds -> ~ has_direct_match ds c s -> has_adjacent_match ds c s ->
     estimated_match_result (pooled_cases ds c s) (recommend_sentence ds c s) /\
     recommends_rounded_mean (pooled_cases ds c s)
                             (recommend_sentence ds c s))
    as Hgen.
  { intros ds c s Hwf Hno Hm. apply pooled_cases_nonempty in Hm.
    assert (direct_cases ds c s = []) as Hd.
    { destruct (list_empty_dec (direct_cases ds c s)) as [E|E]; [exact E|].
      apply direct_cases_nonempty in E. contradiction. }
    split.
    - destruct (recommend_estimate ds c s Hwf Hd Hm) as (st & Hr & Hs & _).
      exists st. split; [exact Hr|exact Hs].
    - now apply recommend_estimate_rounded_mean. }
  split; [exact Hgen|]. split; [|split].
  - intros c s. apply Hgen. exact historical_data_well_formed.
  - split; [vm_compute; reflexivity|]. split; [vm_compute; reflexivity|].
    vm_compute. discriminate.
  - split; [vm_compute; reflexivity|]. split; [vm_compute; reflexivity|].
    reflexivity.
Qed.

Lemma estimated_match_recommendation_witness :
  ~ has_direct_match historical_data "Burglary" 3 /\
  has_adjacent_match historical_data "Burglary" 3 /\
  estimated_match_result (pooled_cases historical_data "Burglary" 3)
                         (recommend_sentence historical_data "Burglary" 3) /\
  recommends_rounded_mean (pooled_cases historical_data "Burglary" 3)
                          (recommend_sentence historical_data "Burglary" 3).
Proof.
  assert (~ has_direct_match historical_data "Burglary" 3) as Hno.
  { intros Hm. apply direct_cases_nonempty in Hm. apply Hm.
    vm_compute. reflexivity. }
  assert (has_adjacent_match historical_data "Burglary" 3) as Hm.
  { exists (hc "HN003" "Burglary" 4 24).
    split; [do 2 right; left|split; [reflexivity|]].
    unfold adjacent_severity. cbn. lia. }
  split; [exact Hno|]. split; [exact Hm|].
  apply (proj1 estimated_match_recommendation);
    [historical_well_formed|exact Hno|exact Hm].
Defined.

(** C8. When no historical case has crime type [c], every severity gets the
    no-data answer: status "Failed", no statistics, and the basis
    "No historical data found for this crime type."; so does
    ("Homicide", 5) on [historical_data]. *)
Theorem unknown_crime_type_no_data :
  (forall ds c s,
     (forall h, h ∈ ds -> crime_type h <> c) ->
     recommend_sentence ds c s
     = Return {| status := "Failed"; data := None;
                 basis := "No historical data found for this crime type." |}) /\
  api_recommend_sentence "Homicide" 5
  = Return {| status := "Failed"; data := None;
              basis := "No historical data found for this crime type." |}.
Proof.
  split; [|vm_compute; reflexivity].
  intros ds c s Hnone. apply recommend_no_data.
  - destruct (list_empty_dec (direct_cases ds c s)) as [E|E]; [exact E|].
    apply direct_cases_nonempty in E as (h & Hin & Hc & _).
    destruct (Hnone h Hin Hc).
  - destruct (list_empty_dec (pooled_cases ds c s)) as [E|E]; [exact E|].
    apply pooled_cases_nonempty in E as (h & Hin & Hc & _).
    destruct (Hnone h Hin Hc).
Qed.

Lemma unknown_crime_type_no_data_witness :
  (forall h, h ∈ historical_data -> crime_type h <> "Homicide") /\
  recommend_sentence historical_data "Homicide" 7
  = Return {| status := "Failed"; data := None;
              basis := "No historical data found for this crime type." |}.
Proof.
  assert (forall h, h ∈ historical_data -> crime_type h <> "Homicide") as Hnone.
  { intros h Hin. unfold historical_data in Hin.
    repeat (apply elem_of_cons in Hin as [->|Hin]; [discriminate|]).
    apply elem_of_nil in Hin. destruct Hin. }
  split; [exact Hnone|].
  exact (proj1 unknown_crime_type_no_data historical_data "Homicide" 7 Hnone).
Defined.

(** C6. Whenever the status is not "Failed", the result carries statistics
    with min_sentence <= recommendation_months <= max_sentence: rounding
    the mean to one decimal never leaves the range of the matched
    sentences.  This holds on every well-formed table and, for every query,
    on [historical_data]. *)
Theorem recommendation_between_extremes :
  (forall ds c s,
     well_formed ds ->
     exists r, recommend_sentence ds c s = Return r /\
               (status r <> "Failed" ->
                exists st, data r = Some st /\ within_range st)) /\
  (forall c s,
     exists r, api_recommend_sentence c s = Return r /\
               (status r <> "Failed" ->
                exists st, data r = Some st /\ within_range st)).
Proof.
  split.
  - exact recommend_within_range.
  - intros c s. apply recommend_within_range, historical_data_well_formed.
Qed.

Lemma recommendation_between_extremes_witness :
  well_formed historical_data /\
  exists r, recommend_sentence historical_data "Burglary" 3 = Return r /\
            (status r <> "Failed" ->
             exists st, data r = Some st /\ within_range st).
Proof.
  assert (well_formed historical_data) as Hwf by historical_well_formed.
  split; [exact Hwf|].
  exact (proj1 recommendation_between_extremes historical_data "Burglary" 3 Hwf).
Defined.

(** C9. [recommend_sentence] is total: on [historical_data], and on every
    well-formed table, each crime type and each integer severity gets a
    well-formed result and no exception.  On any table whatsoever the
    division is never by zero and [None] is never subscripted, because
    [get_stats] is reached only with a non-empty list, for which it never
    returns [None]; hence a returned result is always well formed. *)
Theorem recommend_is_total :
  (forall c s,
     exists r, api_recommend_sentence c s = Return r /\ well_formed_result r) /\
  (forall ds c s,
     well_formed ds ->
     exists r, recommend_sentence ds c s = Return r /\ well_formed_result r) /\
  (forall ds c s,
     recommend_sentence ds c s <> Raise ZeroDivisionError /\
     recommend_sentence ds c s <> Raise TypeError /\
     recommend_sentence ds c s <> Raise ValueError) /\
  (forall cases, cases <> [] -> get_stats cases <> Return None) /\
  (forall ds c s r,
     recommend_sentence ds c s = Return r -> well_formed_result r).
Proof.
  split; [|split; [|split; [|split]]].
  - intros c s. apply recommend_well_formed_result, historical_data_well_formed.
  - exact recommend_well_formed_result.
  - intros ds c s.
    repeat split; intros H; apply recommend_raises_only_overflow in H;
      discriminate H.
  - intros cases Hne H. apply truthy_true in Hne.
    destruct (get_stats_nonempty cases Hne) as [(st & Hst & _)|Hst];
      rewrite Hst in H; discriminate H.
  - intros ds c s r. unfold recommend_sentence. cbv zeta.
    rewrite matching_cases_direct, similar_cases_pooled.
    destruct (truthy (direct_cases ds c s)) eqn:Ht.
    + destruct (get_stats_nonempty _ Ht) as [(st & Hst & Hn)|Hst];
        rewrite Hst; cbn [mbind py_bind subscript_case_count];
        intros H; inversion H; subst r.
      left. split; [left; reflexivity|]. exists st. split; [reflexivity|].
      rewrite Hn. apply py_len_positive. now apply truthy_true.
    + destruct (truthy (pooled_cases ds c s)) eqn:Ht'.
      * destruct (get_stats_nonempty _ Ht') as [(st & Hst & Hn)|Hst];
          rewrite Hst; cbn [mbind py_bind subscript_case_count];
          intros H; inversion H; subst r.
        left. split; [right; reflexivity|]. exists st. split; [reflexivity|].
        rewrite Hn. apply py_len_positive. now apply truthy_true.
      * intros H. inversion H. right. reflexivity.
Qed.

Lemma recommend_is_total_witness :
  well_formed historical_data /\
  exists r, recommend_sentence historical_data "Fraud" 4 = Return r /\
            well_formed_result r.
Proof.
  assert (well_formed historical_data) as Hwf by historical_well_formed.
  split; [exact Hwf|].
  exact (proj1 (proj2 recommend_is_total) historical_data "Fraud" 4 Hwf).
Defined.

(** ** Severity scores outside [1,5] *)

Lemma pooled_cases_out_of_range ds c s :
  ~ (1 <= s <= 5) -> pooled_cases ds c s = edge_cases ds c s.
Proof.
  intros Hs. unfold pooled_cases, edge_cases, adjacent_severity.
  apply list_filter_iff. intros h. split.
  - intros [Hc Hadj]. split; [exact Hc|]. lia.
  - intros [Hc Hedge]. split; [exact Hc|]. lia.
Qed.

Lemma direct_cases_out_of_range ds c s :
  well_formed ds -> ~ (1 <= s <= 5) -> direct_cases ds c s = [].
Proof.
  intros [Hall _] Hs.
  destruct (list_empty_dec (direct_cases ds c s)) as [E|E]; [exact E|].
  apply direct_cases_nonempty in E as (h & Hin & _ & Hsev).
  rewrite Forall_forall in Hall. destruct (Hall h Hin) as [Hrange _]. lia.
Qed.

Lemma edge_cases_far ds c s : s < 0 \/ 6 < s -> edge_cases ds c s = [].
Proof.
  intros Hs. unfold edge_cases.
  destruct (filter _ ds) as [|h l] eqn:Hf; [reflexivity|].
  assert (h ∈ filter (fun h => crime_type h = c /\
                         ((s = 0 /\ severity_score h = 1) \/
                          (s = 6 /\ severity_score h = 5))) ds) as Hin
    by (rewrite Hf; left).
  apply list_elem_of_filter in Hin as [[_ Hedge] _]. lia.
Qed.

(** C5, as the code has it.  The query severity itself is never checked;
    only the neighbours s-1 and s+1 are kept inside [1,5].  A severity
    outside [1,5] therefore gets the no-data answer, except that 0 still
    reaches the cases of severity 1 and 6 those of severity 5: when such
    cases of the crime type exist the answer is the estimated match over
    them.  In particular every severity below 0 or above 6 gets the
    no-data answer. *)
Theorem out_of_range_severity :
  (forall ds c s,
     well_formed ds -> ~ (1 <= s <= 5) ->
     (edge_cases ds c s = [] ->
      recommend_sentence ds c s
      = Return {| status := "Failed"; data := None;
                  basis := "No historical data found for this crime type." |}) /\
     (edge_cases ds c s <> [] ->
      estimated_match_result (edge_cases ds c s) (recommend_sentence ds c s))) /\
  (forall c s,
     s < 0 \/ 6 < s ->
     api_recommend_sentence c s
     = Return {| status := "Failed"; data := None;
                 basis := "No historical data found for this crime type." |}).
Proof.
  assert (forall ds c s,
     well_formed ds -> ~ (1 <= s <= 5) ->
     (edge_cases ds c s = [] -> recommend_sentence ds c s = Return no_data) /\
     (edge_cases ds c s <> [] ->
      estimated_match_result (edge_cases ds c s) (recommend_sentence ds c s)))
    as Hgen.
  { intros ds c s Hwf Hs.
    pose proof (direct_cases_out_of_range ds c s Hwf Hs) as Hd.
    pose proof (pooled_cases_out_of_range ds c s Hs) as Hp.
    split; intros He.
    - apply recommend_no_data; [exact Hd|]. now rewrite Hp.
    - rewrite <- Hp in He.
      destruct (recommend_estimate ds c s Hwf Hd He) as (st & Hr & Hsum & _).
      rewrite <- Hp. exists st. split; [exact Hr|exact Hsum]. }
  split; [exact Hgen|].
  intros c s Hs.
  apply (Hgen historical_data c s historical_data_well_formed ltac:(lia)).
  now apply edge_cases_far.
Qed.

Lemma out_of_range_severity_witness :
  well_formed historical_data /\ ~ (1 <= 0 <= 5) /\
  edge_cases historical_data "Vandalism" 0 <> [] /\
  estimated_match_result (edge_cases historical_data "Vandalism" 0)
                         (recommend_sentence historical_data "Vandalism" 0).
Proof.
  assert (well_formed historical_data) as Hwf by historical_well_formed.
  assert (~ (1 <= 0 <= 5)) as Hs by lia.
  assert (edge_cases historical_data "Vandalism" 0 <> []) as He
    by (vm_compute; discriminate).
  split; [exact Hwf|]. split; [exact Hs|]. split; [exact He|].
  exact (proj2 (proj1 out_of_range_severity historical_data "Vandalism" 0 Hwf Hs) He).
Defined.

(** C5 as stated fails: severity 0 is outside [1,5], yet ("Vandalism", 0)
    is answered from the severity-1 case with an estimate of 1.0. *)
Lemma out_of_range_severity_counterexample :
  ~ (1 <= 0 <= 5) /\
  (exists r,
     of_tenths 10 = Some r /\
     api_recommend_sentence "Vandalism" 0
     = Return {| status := "Success (Estimated)";
                 data := Some {| recommendation_months := r;
                                 min_sentence := 1; max_sentence := 1;
                                 case_count := 1 |};
                 basis := "Estimate based on 1 case(s) with similar severity." |}) /\
  ~ (forall c s, ~ (1 <= s <= 5) ->
       exists r, api_recommend_sentence c s = Return r /\ status r = "Failed").
Proof.
  split; [lia|]. split.
  - eexists. split; vm_compute; reflexivity.
  - intros H. destruct (H "Vandalism" 0 ltac:(lia)) as (r & Hr & Hst).
    vm_compute in Hr. inversion Hr; subst r. discriminate Hst.
Qed.

(** ** The rounding rule of [round(mean, 1)] *)

Lemma to_Q_tie m e k :
  (to_Q (Float false m e) == (2 * k + 1) # 20)%Q ->
  e < 0 /\ 2 * (10 * m) = (2 * k + 1) * 2 ^ (- e).
Proof.
  unfold to_Q, Qeq. cbn [fsign fexp fmant].
  destruct (Z.leb_spec 0 e) as [He|He]; cbn [Qnum Qden inject_Z].
  - intros H. lia.
  - assert (0 < 2 ^ (- e)) as HP by (apply Z.pow_pos_nonneg; lia).
    rewrite Z2Pos.id by exact HP. intros H. split; lia.
Qed.

Lemma round1_tie x k :
  fsign x = false -> 0 <= k ->
  (to_Q x == (2 * k + 1) # 20)%Q ->
  round1 x = match of_tenths (if Z.even k then k else k + 1) with
             | Some y => Return y
             | None => Raise OverflowError
             end.
Proof.
  destruct x as [sg m e]. cbn [fsign]. intros -> Hk Hx.
  apply to_Q_tie in Hx as [He Htie].
  assert (0 < 2 ^ (- e)) as HP by (apply Z.pow_pos_nonneg; lia).
  unfold round1, tenths_of, of_tenths. cbn [fsign fexp fmant].
  destruct (Z.leb_spec 0 e); [lia|].
  rewrite (rhe_div_tie (10 * m) (2 ^ (- e)) HP k Htie).
  set (t := if Z.even k then k else k + 1).
  assert (0 <= t) as Ht by (unfold t; destruct (Z.even k); lia).
  destruct (Z.ltb_spec t 0); [lia|]. now rewrite Z.abs_eq by lia.
Qed.

Lemma quarter_tie_tenths n : rhe_div (10 * (4 * n + 1)) 4 = 10 * n + 2.
Proof.
  rewrite (rhe_div_tie _ 4 ltac:(lia) (10 * n + 2)) by lia.
  replace (10 * n + 2) with (2 * (5 * n + 1)) by lia.
  now rewrite Z.even_mul.
Qed.

(** C10, as the code has it.  [round] sees the binary64 mean, and rounds
    half to even on its exact value: whenever that float lies exactly
    halfway between two one-decimal values the result is the neighbour
    with the even last digit.  Every matched case set with a mean of
    exactly n + 1/4, which binary64 holds exactly, therefore gets
    n + 0.2: a mean of 3.25 gives 3.2, not 3.3. *)
Theorem rounding_is_half_even_on_the_float_mean :
  (forall x k,
     fsign x = false -> 0 <= k ->
     (to_Q x == (2 * k + 1) # 20)%Q ->
     round1 x = match of_tenths (if Z.even k then k else k + 1) with
                | Some y => Return y
                | None => Raise OverflowError
                end) /\
  (forall cases n,
     cases <> [] ->
     Forall (fun h => 1 <= sentence_given_months h) cases ->
     py_sum (map sentence_given_months cases) < 2 ^ 47 ->
     4 * py_sum (map sentence_given_months cases)
     = (4 * n + 1) * py_len cases ->
     exists st, get_stats cases = Return (Some st) /\
                of_tenths (10 * n + 2) = Some (recommendation_months st)) /\
  (exists st r32 r33,
     get_stats mean_3_25_cases = Return (Some st) /\
     of_tenths 32 = Some r32 /\ of_tenths 33 = Some r33 /\
     recommendation_months st = r32 /\ r32 <> r33).
Proof.
  split; [exact round1_tie|]. split.
  - intros cases n Hne Hpos Hsum Hmean. apply truthy_true in Hne.
    destruct (get_stats_spec cases Hne Hpos Hsum) as (st & Hst & _ & _ & Hq).
    exists st. split; [exact Hst|].
    rewrite <- (quarter_tie_tenths n). apply Hq. exact Hmean.
  - do 3 eexists. split; [vm_compute; reflexivity|].
    split; [vm_compute; reflexivity|]. split; [vm_compute; reflexivity|].
    split; [reflexivity|]. discriminate.
Qed.

Lemma rounding_is_half_even_on_the_float_mean_witness :
  mean_3_25_cases <> [] /\
  Forall (fun h => 1 <= sentence_given_months h) mean_3_25_cases /\
  py_sum (map sentence_given_months mean_3_25_cases) < 2 ^ 47 /\
  4 * py_sum (map sentence_given_months mean_3_25_cases)
  = (4 * 3 + 1) * py_len mean_3_25_cases /\
  exists st, get_stats mean_3_25_cases = Return (Some st) /\
             of_tenths (10 * 3 + 2) = Some (recommendation_months st).
Proof.
  assert (mean_3_25_cases <> []) as H1 by discriminate.
  assert (Forall (fun h => 1 <= sentence_given_months h) mean_3_25_cases)
    as H2 by (repeat constructor; cbn; lia).
  assert (py_sum (map sentence_given_months mean_3_25_cases) < 2 ^ 47)
    as H3 by (vm_compute; reflexivity).
  assert (4 * py_sum (map sentence_given_months mean_3_25_cases)
          = (4 * 3 + 1) * py_len mean_3_25_cases)
    as H4 by (vm_compute; reflexivity).
  split; [exact H1|]. split; [exact H2|]. split; [exact H3|].
  split; [exact H4|].
  exact (proj1 (proj2 rounding_is_half_even_on_the_float_mean)
           mean_3_25_cases 3 H1 H2 H3 H4).
Defined.

(** C10 as stated fails: twenty sentences with the mean 21/20 = 1.05, a
    half at the second decimal after the even digit 0, get 1.1 and not
    1.0, because the binary64 value nearest to 1.05 lies above it. *)
Lemma half_even_on_exact_mean_counterexample :
  20 * py_sum (map sentence_given_months mean_1_05_cases)
  = 21 * py_len mean_1_05_cases /\
  direct_cases mean_1_05_cases "Perjury" 1 = mean_1_05_cases /\
  (exists st r10 r11,
     recommend_sentence mean_1_05_cases "Perjury" 1
     = Return {| status := "Success"; data := Some st;
                 basis := "Direct match from 20 historical case(s)." |} /\
     of_tenths 10 = Some r10 /\ of_tenths 11 = Some r11 /\
     recommendation_months st = r11 /\ r10 <> r11) /\
  (exists x,
     truediv 21 20 = Return x /\ (21 # 20 < to_Q x)%Q).
Proof.
  split; [vm_compute; reflexivity|]. split; [vm_compute; reflexivity|]. split.
  - do 3 eexists. split; [vm_compute; reflexivity|].
    split; [vm_compute; reflexivity|]. split; [vm_compute; reflexivity|].
    split; [reflexivity|]. discriminate.
  - eexists. split; [vm_compute; reflexivity|]. vm_compute. reflexivity.
Qed.

(** ** Facts about insertion-ordered dictionaries *)

Section OrderedDict.

Context {V : Type}.
Implicit Types (l : list (string * V)) (d : odict V) (k : string) (v : V).

Lemma items_get_set_eq l k v : items_get (items_set l k v) k = Some v.
Proof.
  induction l as [|[k' v'] l IH]; cbn.
  - now rewrite decide_True.
  - destruct (decide (k' = k)) as [->|Hne]; cbn.
    + now rewrite decide_True.
    + now rewrite decide_False.
Qed.

Lemma items_get_set_ne l k k' v :
  k <> k' -> items_get (items_set l k v) k' = items_get l k'.
Proof.
  intros Hne. induction l as [|[k0 v0] l IH]; cbn.
  - now rewrite decide_False.
  - destruct (decide (k0 = k)) as [->|Hne0]; cbn.
    + now rewrite !decide_False.
    + destruct (decide (k0 = k')); [reflexivity|exact IH].
Qed.

Lemma items_get_None l k : items_get l k = None <-> k ∉ l.*1.
Proof.
  induction l as [|[k' v'] l IH]; cbn.
  - split; [intros _ H; inversion H|reflexivity].
  - rewrite not_elem_of_cons. destruct (decide (k' = k)) as [->|Hne].
    + split; [discriminate|intros [[] _]; reflexivity].
    + rewrite IH. split; [intros H; split; [congruence|exact H]|tauto].
Qed.

Lemma items_get_elem_of l k v : items_get l k = Some v -> (k, v) ∈ l.
Proof.
  induction l as [|[k' v'] l IH]; cbn; [discriminate|].
  destruct (decide (k' = k)) as [->|_].
  - intros [= ->]. left.
  - intros H. right. auto.
Qed.

Lemma elem_of_items_get l k v :
  NoDup l.*1 -> (k, v) ∈ l -> items_get l k = Some v.
Proof.
  induction l as [|[k' v'] l IH]; cbn; intros Hnd Hin.
  - inversion Hin.
  - apply NoDup_cons in Hnd as [Hnotin Hnd].
    apply elem_of_cons in Hin as [[= -> ->]|Hin].
    + now rewrite decide_True.
    + destruct (decide (k' = k)) as [->|_]; [|auto].
      destruct Hnotin. apply list_elem_of_fmap. exists (k, v). auto.
Qed.

(** Assigning to a key that is present keeps every key in its place;
    assigning to a new key appends it. *)
Lemma items_set_present l k v :
  is_Some (items_get l k) -> (items_set l k v).*1 = l.*1.
Proof.
  induction l as [|[k' v'] l IH]; cbn; intros [w Hw]; [discriminate|].
  destruct (decide (k' = k)) as [->|Hne]; cbn; [reflexivity|].
  f_equal. apply IH. eauto.
Qed.

Lemma items_set_absent l k v :
  items_get l k = None -> items_set l k v = l ++ [(k, v)].
Proof.
  induction l as [|[k' v'] l IH]; cbn; intros Hk; [reflexivity|].
  destruct (decide (k' = k)); [discriminate|]. f_equal. auto.
Qed.

Lemma items_set_set_eq l k v w :
  items_set (items_set l k w) k v = items_set l k v.
Proof.
  induction l as [|[k' v'] l IH]; cbn.
  - now rewrite decide_True.
  - destruct (decide (k' = k)) as [->|Hne]; cbn.
    + now rewrite decide_True.
    + rewrite decide_False by exact Hne. now rewrite IH.
Qed.

Lemma items_set_commute l i j (x y : V) :
  i <> j -> is_Some (items_get l i) \/ is_Some (items_get l j) ->
  items_set (items_set l j y) i x = items_set (items_set l i x) j y.
Proof.
  intros Hij. induction l as [|[k' v'] l IH]; cbn [items_get items_set].
  - intros [[w Hw]|[w Hw]]; discriminate.
  - destruct (decide (k' = i)) as [Ei|Hi], (decide (k' = j)) as [Ej|Hj];
      cbn [items_set].
    + congruence.
    + intros _. subst k'. rewrite decide_True by reflexivity.
      now rewrite decide_False by exact Hij.
    + intros _. subst k'. rewrite decide_False by congruence.
      now rewrite decide_True by reflexivity.
    + intros H. rewrite !decide_False by assumption. f_equal. now apply IH.
Qed.

Lemma odict_eq d1 d2 : odict_items d1 = odict_items d2 -> d1 = d2.
Proof.
  destruct d1 as [l1 H1], d2 as [l2 H2]. cbn. intros ->.
  f_equal. apply proof_irrel.
Qed.

Lemma odict_items_NoDup d : NoDup (odict_items d).*1.
Proof. exact (bool_decide_unpack _ (odict_nodup d)). Qed.

Lemma odict_lookup_insert_eq d k v : <[k := v]> d !! k = Some v.
Proof. apply items_get_set_eq. Qed.

Lemma odict_lookup_insert_ne d k k' v :
  k <> k' -> <[k := v]> d !! k' = d !! k'.
Proof. apply items_get_set_ne. Qed.

Lemma odict_lookup_empty k : (∅ : odict V) !! k = None.
Proof. reflexivity. Qed.

Lemma odict_lookup_singleton_Some k k' v v' :
  ({[ k := v ]} : odict V) !! k' = Some v' <-> k = k' /\ v = v'.
Proof.
  unfold singletonM, odict_singleton. split.
  - destruct (decide (k = k')) as [->|Hne].
    + rewrite odict_lookup_insert_eq. intros [= ->]. auto.
    + rewrite odict_lookup_insert_ne by exact Hne. discriminate.
  - intros [-> ->]. apply odict_lookup_insert_eq.
Qed.

Lemma odict_insert_insert_eq d k v w :
  <[k := v]> (<[k := w]> d) = <[k := v]> d.
Proof. apply odict_eq, items_set_set_eq. Qed.

Lemma odict_insert_commute d i j (x y : V) :
  i <> j -> is_Some (d !! i) \/ is_Some (d !! j) ->
  <[i := x]> (<[j := y]> d) = <[j := y]> (<[i := x]> d).
Proof. intros Hij H. apply odict_eq. now apply items_set_commute. Qed.

Lemma odict_elem_of_dom d k : k ∈ dom d <-> is_Some (d !! k).
Proof.
  unfold dom, odict_dom, lookup, odict_lookup.
  rewrite elem_of_list_to_set, <- not_eq_None_Some, items_get_None.
  split; [auto|apply dec_stable].
Qed.

Lemma odict_dom_insert_lookup d k v :
  is_Some (d !! k) -> dom (<[k := v]> d) = dom d.
Proof.
  intros H. unfold dom, odict_dom. cbn [insert odict_insert odict_items].
  unfold insert, odict_insert. cbn [odict_items].
  now rewrite items_set_present.
Qed.

Lemma odict_dom_insert d k v : dom (<[k := v]> d) = {[ k ]} ∪ dom d.
Proof.
  destruct (d !! k) as [w|] eqn:E.
  - rewrite odict_dom_insert_lookup by eauto.
    symmetry. apply subseteq_union_1_L.
    apply singleton_subseteq_l, odict_elem_of_dom. eauto.
  - unfold dom, odict_dom, insert, odict_insert. cbn [odict_items].
    rewrite (items_set_absent _ _ _ E), fmap_app, list_to_set_app_L.
    cbn. rewrite (right_id_L ∅ (∪)). apply (comm_L (∪)).
Qed.

(** The values listed are exactly the values stored under some key. *)
Lemma odict_elem_of_values d v :
  v ∈ odict_values d <-> exists k, d !! k = Some v.
Proof.
  unfold odict_values, lookup, odict_lookup. rewrite list_elem_of_fmap. split.
  - intros ([k v'] & -> & Hin). exists k.
    apply elem_of_items_get; [apply odict_items_NoDup|exact Hin].
  - intros (k & Hk). exists (k, v). split; [reflexivity|].
    now apply items_get_elem_of.
Qed.

Lemma odict_values_insert_fresh d k v :
  d !! k = None -> odict_values (<[k := v]> d) = odict_values d ++ [v].
Proof.
  intros E. unfold odict_values, insert, odict_insert. cbn [odict_items].
  now rewrite (items_set_absent _ _ _ E), fmap_app.
Qed.

End OrderedDict.

(** ** The claims about the case-file registry *)

Import Registry.

Section RegistryFacts.

Implicit Types (db : odict CriminalCase) (id name item now : string).

Lemma create_fresh id name db :
  db !! id = None ->
  api_create_case id name db
  = (CaseData "success" (new_case id name), <[id := new_case id name]> db).
Proof. intros H. unfold api_create_case. now rewrite H. Qed.

Lemma create_duplicate id name db :
  is_Some (db !! id) ->
  api_create_case id name db = (Message "error" "Case ID already exists.", db).
Proof. intros [c H]. unfold api_create_case. now rewrite H. Qed.

Lemma get_present id db c :
  db !! id = Some c -> api_get_case id db = (CaseData "success" c, db).
Proof. intros H. unfold api_get_case. now rewrite H. Qed.

(** Every endpoint keeps every registered case, with the same identifier
    and defendant, and with its former evidence log as a prefix of the
    new one. *)
Lemma handle_preserves rq db id c :
  db !! id = Some c ->
  exists c', snd (handle rq db) !! id = Some c' /\
             Registry.case_id c' = Registry.case_id c /\
             defendant_name c' = defendant_name c /\
             evidence_log c `prefix_of` evidence_log c'.
Proof.
  intros Hc.
  assert (exists c', db !! id = Some c' /\
             Registry.case_id c' = Registry.case_id c /\
             defendant_name c' = defendant_name c /\
             evidence_log c `prefix_of` evidence_log c') as Hsame
    by (exists c; auto).
  destruct rq as [|id' name|id'|id' item now|id' st]; cbn [handle].
  - exact Hsame.
  - unfold api_create_case. destruct (db !! id') eqn:E; cbn [snd].
    + exact Hsame.
    + rewrite odict_lookup_insert_ne by congruence. exact Hsame.
  - unfold api_get_case. destruct (db !! id'); exact Hsame.
  - unfold api_add_evidence. destruct (db !! id') as [c0|] eqn:E; cbn [snd].
    + destruct (decide (id' = id)) as [->|Hne].
      * rewrite odict_lookup_insert_eq. rewrite Hc in E. injection E as <-.
        eexists. split; [reflexivity|]. cbn.
        split; [reflexivity|]. split; [reflexivity|].
        now apply prefix_app_r.
      * rewrite odict_lookup_insert_ne by exact Hne. exact Hsame.
    + exact Hsame.
  - unfold api_update_status. destruct (db !! id') as [c0|] eqn:E; cbn [snd].
    + destruct (decide (id' = id)) as [->|Hne].
      * rewrite odict_lookup_insert_eq. rewrite Hc in E. injection E as <-.
        eexists. split; [reflexivity|]. cbn. auto.
      * rewrite odict_lookup_insert_ne by exact Hne. exact Hsame.
    + exact Hsame.
Qed.

Lemma serve_preserves rqs db id c :
  db !! id = Some c ->
  exists c', serve rqs db !! id = Some c' /\
             Registry.case_id c' = Registry.case_id c /\
             defendant_name c' = defendant_name c /\
             evidence_log c `prefix_of` evidence_log c'.
Proof.
  revert db c. induction rqs as [|rq rqs IH]; intros db c Hc; cbn [serve].
  - exists c. auto.
  - destruct (handle_preserves rq db id c Hc) as (c1 & H1 & Hid1 & Hn1 & Hp1).
    destruct (IH _ c1 H1) as (c2 & H2 & Hid2 & Hn2 & Hp2).
    exists c2. split; [exact H2|]. split; [congruence|]. split; [congruence|].
    etrans; eassumption.
Qed.

End RegistryFacts.

Lemma handle_keeps_status rq db id c :
  db !! id = Some c -> ~ updates_status_of id rq ->
  exists c', snd (handle rq db) !! id = Some c' /\
             case_status c' = case_status c.
Proof.
  intros Hc Hrq.
  assert (exists c', db !! id = Some c' /\ case_status c' = case_status c)
    as Hsame by (exists c; auto).
  destruct rq as [|id' name|id'|id' item now|id' st]; cbn [handle].
  - exact Hsame.
  - unfold api_create_case. destruct (db !! id') eqn:E; cbn [snd].
    + exact Hsame.
    + rewrite odict_lookup_insert_ne by congruence. exact Hsame.
  - unfold api_get_case. destruct (db !! id'); exact Hsame.
  - unfold api_add_evidence. destruct (db !! id') as [c0|] eqn:E; cbn [snd].
    + destruct (decide (id' = id)) as [->|Hne].
      * rewrite odict_lookup_insert_eq. rewrite Hc in E. injection E as <-.
        eexists. split; reflexivity.
      * rewrite odict_lookup_insert_ne by exact Hne. exact Hsame.
    + exact Hsame.
  - cbn in Hrq. unfold api_update_status.
    destruct (db !! id') as [c0|] eqn:E; cbn [snd].
    + rewrite odict_lookup_insert_ne by exact Hrq. exact Hsame.
    + exact Hsame.
Qed.

Lemma serve_keeps_status rqs db id c :
  db !! id = Some c -> Forall (fun rq => ~ updates_status_of id rq) rqs ->
  exists c', serve rqs db !! id = Some c' /\
             case_status c' = case_status c.
Proof.
  intros Hc Hall. revert db c Hc.
  induction Hall as [|rq rqs Hrq _ IH]; intros db c Hc; cbn [serve].
  - exists c. auto.
  - destruct (handle_keeps_status rq db id c Hc Hrq) as (c1 & H1 & Hs1).
    destruct (IH _ c1 H1) as (c2 & H2 & Hs2).
    exists c2. split; [exact H2|congruence].
Qed.

(** C3. Creating a case whose identifier is already registered fails with
    the error "Case ID already exists." and leaves the registry as it was.
    Creating a fresh identifier twice gives one success and one such
    error; the registry after both calls is the registry after the first;
    and the stored record keeps the first defendant: after "C1" for
    "Alice" and then "C1" for "Bob", [api_get_case "C1"] shows "Alice". *)
Theorem create_case_rejects_duplicates :
  (forall (db : odict CriminalCase) id name,
     is_Some (db !! id) ->
     api_create_case id name db
     = (Message "error" "Case ID already exists.", db)) /\
  (forall (db : odict CriminalCase) id first second,
     db !! id = None ->
     exists db1,
       api_create_case id first db
       = (CaseData "success" (new_case id first), db1) /\
       api_create_case id second db1
       = (Message "error" "Case ID already exists.", db1) /\
       serve [CreateCase id first; CreateCase id second] db
       = serve [CreateCase id first] db /\
       exists c, api_get_case id db1 = (CaseData "success" c, db1) /\
                 defendant_name c = first) /\
  (exists db1,
     api_create_case "C1" "Alice" ∅
     = (CaseData "success" (new_case "C1" "Alice"), db1) /\
     api_create_case "C1" "Bob" db1
     = (Message "error" "Case ID already exists.", db1) /\
     api_get_case "C1" db1
     = (CaseData "success"
          {| Registry.case_id := "C1"; defendant_name := "Alice";
             evidence_log := []; case_status := "Investigation" |}, db1)).
Proof.
  assert (forall (db : odict CriminalCase) id first second,
     db !! id = None ->
     exists db1,
       api_create_case id first db
       = (CaseData "success" (new_case id first), db1) /\
       api_create_case id second db1
       = (Message "error" "Case ID already exists.", db1) /\
       serve [CreateCase id first; CreateCase id second] db
       = serve [CreateCase id first] db /\
       exists c, api_get_case id db1 = (CaseData "success" c, db1) /\
                 defendant_name c = first) as Htwice.
  { intros db id first second Hfresh.
    exists (<[id := new_case id first]> db).
    assert (<[id := new_case id first]> db !! id = Some (new_case id first))
      as Hin by apply odict_lookup_insert_eq.
    split; [now apply create_fresh|].
    split; [apply create_duplicate; eauto|]. split.
    - cbn [serve handle]. rewrite (create_fresh id first db Hfresh). cbn [snd].
      rewrite create_duplicate by eauto. reflexivity.
    - exists (new_case id first). split; [now apply get_present|reflexivity]. }
  split; [intros db id name; apply create_duplicate|]. split; [exact Htwice|].
  destruct (Htwice ∅ "C1" "Alice" "Bob" (odict_lookup_empty _))
    as (db1 & H1 & H2 & _ & c & H3 & _).
  exists db1. split; [exact H1|]. split; [exact H2|].
  rewrite (create_fresh "C1" "Alice" ∅ (odict_lookup_empty _)) in H1.
  injection H1 as <-. apply get_present, odict_lookup_insert_eq.
Qed.

Lemma create_case_rejects_duplicates_witness :
  is_Some (({[ "C1" := new_case "C1" "Alice" ]} : odict CriminalCase)
             !! "C1") /\
  api_create_case "C1" "Bob" {[ "C1" := new_case "C1" "Alice" ]}
  = (Message "error" "Case ID already exists.",
     {[ "C1" := new_case "C1" "Alice" ]}).
Proof.
  assert (is_Some (({[ "C1" := new_case "C1" "Alice" ]}
                      : odict CriminalCase) !! "C1")) as H
    by (exists (new_case "C1" "Alice"); vm_compute; reflexivity).
  split; [exact H|].
  exact (proj1 create_case_rejects_duplicates _ "C1" "Bob" H).
Defined.



(** C7. For a registered case and any string, [api_update_status] succeeds
    and stores that string as the status, whatever the status was; the
    status read back by [api_get_case] is the one of the last update
    applied to the case, also after any later requests that are not status
    updates of that case.  For an identifier that is not registered the
    answer is "not_found" and the registry is left as it was. *)
Theorem update_status_overwrites :
  (forall (db : odict CriminalCase) id new_status c,
     db !! id = Some c ->
     exists c' db',
       api_update_status id new_status db = (CaseData "success" c', db') /\
       c' = {| Registry.case_id := Registry.case_id c;
               defendant_name := defendant_name c;
               evidence_log := evidence_log c;
               case_status := new_status |} /\
       api_get_case id db' = (CaseData "success" c', db')) /\
  (forall (db : odict CriminalCase) id new_status,
     db !! id = None ->
     api_update_status id new_status db
     = (Message "not_found" "Case not found.", db)) /\
  (forall (db : odict CriminalCase) id new_status c rqs,
     db !! id = Some c ->
     Forall (fun rq => ~ updates_status_of id rq) rqs ->
     exists c',
       fst (api_get_case id (serve (UpdateStatus id new_status :: rqs) db))
       = CaseData "success" c' /\
       case_status c' = new_status).
Proof.
  split; [|split].
  - intros db id st c Hc.
    exists (update_status c st), (<[id := update_status c st]> db).
    split; [unfold api_update_status; now rewrite Hc|].
    split; [reflexivity|]. apply get_present, odict_lookup_insert_eq.
  - intros db id st Hc. unfold api_update_status. now rewrite Hc.
  - intros db id st c rqs Hc Hall. cbn [serve handle].
    unfold api_update_status at 1. rewrite Hc. cbn [snd].
    destruct (serve_keeps_status rqs (<[id := update_status c st]> db) id
                (update_status c st) (odict_lookup_insert_eq _ _ _) Hall)
      as (c' & Hc' & Hst).
    exists c'. split; [|exact Hst].
    now rewrite (get_present _ _ _ Hc').
Qed.

Lemma update_status_overwrites_witness :
  ({[ "C1" := new_case "C1" "Alice" ]} : odict CriminalCase) !! "C1"
  = Some (new_case "C1" "Alice") /\
  exists c' db',
    api_update_status "C1" "Trial" {[ "C1" := new_case "C1" "Alice" ]}
    = (CaseData "success" c', db') /\
    c' = {| Registry.case_id := "C1"; defendant_name := "Alice";
            evidence_log := []; case_status := "Trial" |} /\
    api_get_case "C1" db' = (CaseData "success" c', db').
Proof.
  assert (({[ "C1" := new_case "C1" "Alice" ]} : odict CriminalCase)
            !! "C1" = Some (new_case "C1" "Alice")) as H
    by (vm_compute; reflexivity).
  split; [exact H|].
  exact (proj1 update_status_overwrites _ "C1" "Trial" _ H).
Defined.

(** ** Further properties of the sentencing advisor *)

Lemma py_sum_perm l l' : l ≡ₚ l' -> py_sum l = py_sum l'.
Proof.
  induction 1 as [|x l l' _ IH|x y l|l l' l'' _ IH1 _ IH2].
  - reflexivity.
  - rewrite !py_sum_cons. lia.
  - rewrite !py_sum_cons. lia.
  - congruence.
Qed.

Lemma py_len_perm {A} (l l' : list A) : l ≡ₚ l' -> py_len l = py_len l'.
Proof. intros H. unfold py_len. now rewrite (Permutation_length H). Qed.

Lemma truthy_perm {A} (l l' : list A) : l ≡ₚ l' -> truthy l = truthy l'.
Proof.
  intros H. destruct l, l'; try reflexivity.
  - apply Permutation_nil_cons in H. destruct H.
  - symmetry in H. apply Permutation_nil_cons in H. destruct H.
Qed.

Lemma minimum_of_unique m m' l : minimum_of m l -> minimum_of m' l -> m = m'.
Proof.
  intros [Hin Hall] [Hin' Hall']. rewrite Forall_forall in Hall, Hall'.
  specialize (Hall m' Hin'). specialize (Hall' m Hin). lia.
Qed.

Lemma maximum_of_unique m m' l : maximum_of m l -> maximum_of m' l -> m = m'.
Proof.
  intros [Hin Hall] [Hin' Hall']. rewrite Forall_forall in Hall, Hall'.
  specialize (Hall m' Hin'). specialize (Hall' m Hin). lia.
Qed.

Lemma py_min_perm l l' : l ≡ₚ l' -> py_min l = py_min l'.
Proof.
  intros H. destruct l as [|x l], l' as [|y l']; try reflexivity.
  - apply Permutation_nil_cons in H. destruct H.
  - symmetry in H. apply Permutation_nil_cons in H. destruct H.
  - cbn [py_min]. f_equal.
    pose proof (fold_min_spec l x) as [Hin Hall].
    apply (minimum_of_unique _ _ (y :: l')); [|apply fold_min_spec].
    split; [now rewrite <- H|now rewrite <- H].
Qed.

Lemma py_max_perm l l' : l ≡ₚ l' -> py_max l = py_max l'.
Proof.
  intros H. destruct l as [|x l], l' as [|y l']; try reflexivity.
  - apply Permutation_nil_cons in H. destruct H.
  - symmetry in H. apply Permutation_nil_cons in H. destruct H.
  - cbn [py_max]. f_equal.
    pose proof (fold_max_spec l x) as [Hin Hall].
    apply (maximum_of_unique _ _ (y :: l')); [|apply fold_max_spec].
    split; [now rewrite <- H|now rewrite <- H].
Qed.

Lemma get_stats_perm cases cases' :
  cases ≡ₚ cases' -> get_stats cases = get_stats cases'.
Proof.
  intros H. unfold get_stats.
  assert (map sentence_given_months cases
          ≡ₚ map sentence_given_months cases') as Hm
    by now apply Permutation_map.
  rewrite (truthy_perm _ _ H), (py_sum_perm _ _ Hm), (py_len_perm _ _ Hm),
    (py_min_perm _ _ Hm), (py_max_perm _ _ Hm), (py_len_perm _ _ H).
  reflexivity.
Qed.

(** X1. The answer does not depend on the order of the historical table:
    permuting the cases changes neither the status nor any statistic. *)
Theorem recommend_sentence_order_independent ds ds' c s :
  ds ≡ₚ ds' -> recommend_sentence ds c s = recommend_sentence ds' c s.
Proof.
  intros H. unfold recommend_sentence. cbv zeta.
  rewrite !matching_cases_direct, !similar_cases_pooled.
  assert (direct_cases ds c s ≡ₚ direct_cases ds' c s) as Hd
    by (unfold direct_cases; now rewrite H).
  assert (pooled_cases ds c s ≡ₚ pooled_cases ds' c s) as Hp
    by (unfold pooled_cases; now rewrite H).
  rewrite (truthy_perm _ _ Hd), (truthy_perm _ _ Hp),
    (get_stats_perm _ _ Hd), (get_stats_perm _ _ Hp).
  reflexivity.
Qed.

Lemma recommend_sentence_order_independent_witness :
  [hc "X1" "Arson" 2 10; hc "X2" "Arson" 4 20]
  ≡ₚ [hc "X2" "Arson" 4 20; hc "X1" "Arson" 2 10] /\
  recommend_sentence [hc "X1" "Arson" 2 10; hc "X2" "Arson" 4 20] "Arson" 3
  = recommend_sentence [hc "X2" "Arson" 4 20; hc "X1" "Arson" 2 10] "Arson" 3.
Proof.
  assert ([hc "X1" "Arson" 2 10; hc "X2" "Arson" 4 20]
          ≡ₚ [hc "X2" "Arson" 4 20; hc "X1" "Arson" 2 10]) as H
    by apply perm_swap.
  split; [exact H|].
  exact (recommend_sentence_order_independent _ _ "Arson" 3 H).
Defined.

(** X2. A case of another crime type, or of a severity that is neither the
    queried one nor an in-range neighbour of it, has no influence on the
    answer, wherever it stands in the table. *)
Theorem irrelevant_case_has_no_influence l1 l2 h c s :
  ~ relevant c s h ->
  recommend_sentence (l1 ++ h :: l2) c s = recommend_sentence (l1 ++ l2) c s.
Proof.
  intros Hh. unfold recommend_sentence. cbv zeta.
  rewrite !matching_cases_direct, !similar_cases_pooled.
  assert (direct_cases (l1 ++ h :: l2) c s = direct_cases (l1 ++ l2) c s) as ->.
  { unfold direct_cases. rewrite !filter_app, filter_cons.
    destruct (decide _) as [[Hc Hs]|_]; [|reflexivity].
    destruct Hh. split; auto. }
  assert (pooled_cases (l1 ++ h :: l2) c s = pooled_cases (l1 ++ l2) c s) as ->.
  { unfold pooled_cases. rewrite !filter_app, filter_cons.
    destruct (decide _) as [[Hc Hs]|_]; [|reflexivity].
    destruct Hh. split; auto. }
  reflexivity.
Qed.

Lemma irrelevant_case_has_no_influence_witness :
  ~ relevant "Theft" 2 (hc "HN004" "Fraud" 5 60) /\
  recommend_sentence ([hc "HN001" "Theft" 2 3] ++ hc "HN004" "Fraud" 5 60
                      :: [hc "HN005" "Theft" 2 4]) "Theft" 2
  = recommend_sentence ([hc "HN001" "Theft" 2 3] ++ [hc "HN005" "Theft" 2 4])
                       "Theft" 2.
Proof.
  assert (~ relevant "Theft" 2 (hc "HN004" "Fraud" 5 60)) as H
    by (intros [Hc _]; discriminate Hc).
  split; [exact H|].
  exact (irrelevant_case_has_no_influence _ _ _ "Theft" 2 H).
Defined.

(** X3. Tier 1 has priority: once the table holds an exact match for the
    query, cases of any other severity, neighbours included, have no
    influence on the answer. *)
Theorem direct_match_ignores_other_severities l1 l2 h c s :
  has_direct_match (l1 ++ l2) c s -> severity_score h <> s ->
  recommend_sentence (l1 ++ h :: l2) c s = recommend_sentence (l1 ++ l2) c s.
Proof.
  intros Hm Hs. apply direct_cases_nonempty in Hm.
  unfold recommend_sentence. cbv zeta. rewrite !matching_cases_direct.
  assert (direct_cases (l1 ++ h :: l2) c s = direct_cases (l1 ++ l2) c s) as ->.
  { unfold direct_cases. rewrite !filter_app, filter_cons.
    destruct (decide _) as [[_ Hs']|_]; [contradiction|reflexivity]. }
  apply truthy_true in Hm. rewrite Hm. reflexivity.
Qed.

Lemma direct_match_ignores_other_severities_witness :
  has_direct_match ([hc "HN001" "Theft" 2 3] ++ [hc "HN005" "Theft" 2 4])
                   "Theft" 2 /\
  severity_score (hc "HN009" "Theft" 3 6) <> 2 /\
  recommend_sentence ([hc "HN001" "Theft" 2 3] ++ hc "HN009" "Theft" 3 6
                      :: [hc "HN005" "Theft" 2 4]) "Theft" 2
  = recommend_sentence ([hc "HN001" "Theft" 2 3] ++ [hc "HN005" "Theft" 2 4])
                       "Theft" 2.
Proof.
  assert (has_direct_match ([hc "HN001" "Theft" 2 3] ++ [hc "HN005" "Theft" 2 4])
                           "Theft" 2) as H1.
  { exists (hc "HN001" "Theft" 2 3). split; [left|split; reflexivity]. }
  assert (severity_score (hc "HN009" "Theft" 3 6) <> 2) as H2
    by (cbn; lia).
  split; [exact H1|]. split; [exact H2|].
  exact (direct_match_ignores_other_severities _ _ _ "Theft" 2 H1 H2).
Defined.

Lemma cases_used_are_relevant ds c s cases :
  cases = direct_cases ds c s \/ cases = pooled_cases ds c s ->
  forall h, h ∈ cases -> h ∈ ds /\ relevant c s h.
Proof.
  intros [->| ->] h Hin; apply list_elem_of_filter in Hin as [[Hc Hs] Hin];
    (split; [exact Hin|split; [exact Hc|auto]]).
Qed.

Lemma elem_of_months l m :
  m ∈ map sentence_given_months l ->
  exists h, h ∈ l /\ sentence_given_months h = m.
Proof.
  rewrite list_elem_of_In, in_map_iff. intros (h & Hm & Hin).
  exists h. split; [now apply list_elem_of_In|exact Hm].
Qed.

(** X4. When all the cases that a query can use carry the same sentence [m],
    the recommendation is exactly [m], and so are the minimum and the
    maximum: neither the division nor the rounding disturbs an integer
    mean. *)
Theorem unanimous_sentences_are_recommended ds c s m :
  well_formed ds ->
  (forall h, h ∈ ds -> relevant c s h -> sentence_given_months h = m) ->
  exists r,
    recommend_sentence ds c s = Return r /\
    forall st, data r = Some st ->
               (to_Q (recommendation_months st) == inject_Z m)%Q /\
               min_sentence st = m /\ max_sentence st = m.
Proof.
  intros Hwf Hall. destruct (recommend_cases ds c s Hwf) as (r & Hr & Hcases).
  exists r. split; [exact Hr|]. intros st Hst.
  destruct Hcases as [(-> & _)|(st' & cases & Hd & Hs & Hw & _ & Hfrom)];
    [discriminate Hst|].
  rewrite Hd in Hst. injection Hst as <-.
  assert (cases = direct_cases ds c s \/ cases = pooled_cases ds c s) as Hsrc
    by (destruct Hfrom as [[_ ->]|(_ & _ & ->)]; auto).
  destruct Hs as (_ & [Hmin _] & [Hmax _] & _).
  apply elem_of_months in Hmin as (h1 & Hin1 & Hm1).
  apply elem_of_months in Hmax as (h2 & Hin2 & Hm2).
  destruct (cases_used_are_relevant ds c s cases Hsrc h1 Hin1) as [Hds1 Hrel1].
  destruct (cases_used_are_relevant ds c s cases Hsrc h2 Hin2) as [Hds2 Hrel2].
  pose proof (Hall h1 Hds1 Hrel1) as E1. pose proof (Hall h2 Hds2 Hrel2) as E2.
  assert (min_sentence st' = m) as Emin by congruence.
  assert (max_sentence st' = m) as Emax by congruence.
  unfold within_range in Hw. rewrite Emin, Emax in Hw.
  split; [apply Qle_antisym; apply Hw|]. split; assumption.
Qed.

Lemma unanimous_sentences_are_recommended_witness :
  well_formed historical_data /\
  (forall h, h ∈ historical_data -> relevant "Fraud" 5 h ->
             sentence_given_months h = 60) /\
  exists r,
    recommend_sentence historical_data "Fraud" 5 = Return r /\
    forall st, data r = Some st ->
               (to_Q (recommendation_months st) == inject_Z 60)%Q /\
               min_sentence st = 60 /\ max_sentence st = 60.
Proof.
  assert (well_formed historical_data) as Hwf by historical_well_formed.
  assert (forall h, h ∈ historical_data -> relevant "Fraud" 5 h ->
                    sentence_given_months h = 60) as Hall.
  { intros h Hin [Hc _]. unfold historical_data in Hin.
    repeat (apply elem_of_cons in Hin as [->|Hin];
            [first [discriminate Hc|reflexivity]|]).
    apply elem_of_nil in Hin. destruct Hin. }
  split; [exact Hwf|]. split; [exact Hall|].
  exact (unanimous_sentences_are_recommended historical_data "Fraud" 5 60 Hwf Hall).
Defined.

Lemma round_pos_overflow m : 2 ^ 1024 <= m -> round_pos m 1 = None.
Proof.
  intros Hm.
  assert (0 < m) as Hpos by (pose proof (Z.pow_pos_nonneg 2 1024); lia).
  assert (1024 <= Z.log2 m) as Hlog by (apply Z.log2_le_pow2; lia).
  pose proof (Z.log2_spec m Hpos) as [Hlo _].
  unfold round_pos, floor_log2_ratio, pow2_le_ratio, prec, emin, emax.
  change (Z.log2 1) with 0. rewrite Z.sub_0_r.
  destruct (Z.leb_spec 0 (Z.log2 m)); [|lia].
  destruct (Z.leb_spec (1 * 2 ^ Z.log2 m) m); [|lia].
  replace (Z.max (Z.log2 m - (53 - 1)) (-1074)) with (Z.log2 m - 52) by lia.
  destruct (Z.leb_spec 0 (Z.log2 m - 52)); [|lia].
  destruct (_ =? _).
  - destruct (Z.ltb_spec 971 (Z.log2 m - 52 + 1)); [reflexivity|lia].
  - destruct (Z.ltb_spec 971 (Z.log2 m - 52)); [reflexivity|lia].
Qed.

(** X5. The advisor is not total on every table: when the only exact match
    carries a sentence of at least 2^1024 months, the mean is too large for
    a float and [recommend_sentence] raises [OverflowError]. *)
Theorem huge_sentence_raises_overflow ds c s h :
  direct_cases ds c s = [h] -> 2 ^ 1024 <= sentence_given_months h ->
  recommend_sentence ds c s = Raise OverflowError.
Proof.
  intros Hd Hm. unfold recommend_sentence. cbv zeta.
  rewrite matching_cases_direct, Hd. cbn [truthy].
  unfold get_stats. cbn [truthy negb map].
  rewrite py_sum_cons. change (py_sum []) with 0. rewrite Z.add_0_r.
  change (py_len [sentence_given_months h]) with 1.
  assert (0 < sentence_given_months h) as Hpos
    by (pose proof (Z.pow_pos_nonneg 2 1024); lia).
  unfold truediv.
  change (1 =? 0) with false. change (1 <? 0) with false.
  change (Z.abs 1) with 1. cbv iota.
  destruct (Z.ltb_spec (sentence_given_months h) 0); [lia|].
  cbn [xorb]. rewrite Z.abs_eq by lia.
  unfold of_ratio. destruct (Z.eqb_spec (sentence_given_months h) 0); [lia|].
  rewrite (round_pos_overflow _ Hm). reflexivity.
Qed.

Lemma huge_sentence_raises_overflow_witness :
  direct_cases [hc "H1" "Treason" 5 (2 ^ 1024)] "Treason" 5
  = [hc "H1" "Treason" 5 (2 ^ 1024)] /\
  2 ^ 1024 <= sentence_given_months (hc "H1" "Treason" 5 (2 ^ 1024)) /\
  recommend_sentence [hc "H1" "Treason" 5 (2 ^ 1024)] "Treason" 5
  = Raise OverflowError.
Proof.
  assert (direct_cases [hc "H1" "Treason" 5 (2 ^ 1024)] "Treason" 5
          = [hc "H1" "Treason" 5 (2 ^ 1024)]) as H1
    by (vm_compute; reflexivity).
  assert (2 ^ 1024 <= sentence_given_months (hc "H1" "Treason" 5 (2 ^ 1024)))
    as H2 by (cbn [sentence_given_months hc]; lia).
  split; [exact H1|]. split; [exact H2|].
  exact (huge_sentence_raises_overflow _ "Treason" 5 _ H1 H2).
Defined.

Lemma of_tenths_round_trip t :
  10 <= t < 2 ^ 51 ->
  exists y, of_tenths t = Some y /\ tenths_of y = t /\ round1 y = Return y.
Proof.
  intros Ht.
  destruct (round_pos_small t 10 ltac:(lia) ltac:(lia))
    as (m & K & Hr & HK & Herr & _ & _).
  assert (of_ratio false t 10 = Some (Float false m (- K))) as Hof.
  { unfold of_ratio. destruct (Z.eqb_spec t 0); [lia|]. now rewrite Hr. }
  assert (0 < 2 ^ K) as HP by (apply Z.pow_pos_nonneg; lia).
  assert (tenths_of (Float false m (- K)) = t) as Hback.
  { unfold tenths_of. cbn [fexp fmant].
    destruct (Z.leb_spec 0 (- K)); [lia|]. rewrite Z.opp_involutive.
    pose proof (rhe_div_error (10 * m) (2 ^ K) HP) as Hn.
    change (2 ^ 53) with 9007199254740992 in Herr.
    change (2 ^ 51) with 2251799813685248 in Ht.
    set (P := 2 ^ K) in *. set (n := rhe_div (10 * m) P) in *.
    assert (4 * Z.abs (t * P - m * 10) < P) as Hclose by nia.
    assert (Z.abs (n - t) * P < P) by nia.
    nia. }
  exists (Float false m (- K)). split; [|split].
  - unfold of_tenths. destruct (Z.ltb_spec t 0); [lia|].
    now rewrite Z.abs_eq by lia.
  - exact Hback.
  - unfold round1. rewrite Hback. cbn [fsign]. now rewrite Hof.
Qed.

(** X6. A one-decimal number survives the trip through a float: for
    1.0 <= t/10 < 2^51/10 the double written t/10 has the digits t again,
    so it is a fixed point of [round(x, 1)].  Hence the recommendation of
    every answer on a well-formed table is unchanged by rounding it to one
    decimal once more. *)
Theorem recommendation_is_stable_under_rounding :
  (forall t, 10 <= t < 2 ^ 51 ->
     exists y, of_tenths t = Some y /\ tenths_of y = t /\
               round1 y = Return y) /\
  (forall ds c s r st,
     well_formed ds ->
     recommend_sentence ds c s = Return r -> data r = Some st ->
     round1 (recommendation_months st) = Return (recommendation_months st)).
Proof.
  split; [exact of_tenths_round_trip|].
  intros ds c s r st Hwf Hr Hst.
  destruct (recommend_cases ds c s Hwf) as (r' & Hr' & Hcases).
  rewrite Hr in Hr'. injection Hr' as <-.
  destruct Hcases as [(-> & _)|(st' & cases & Hd & Hs & _ & Hne & Hfrom)];
    [discriminate Hst|].
  rewrite Hd in Hst. injection Hst as <-.
  assert (Forall (fun h => 1 <= sentence_given_months h) cases /\
          py_sum (map sentence_given_months cases) < 2 ^ 47) as [Hpos Hsum].
  { destruct Hfrom as [[_ ->]|(_ & _ & ->)];
      apply well_formed_filter; exact Hwf. }
  destruct Hs as ((t & Ht & Hnear) & _).
  assert (py_len (map sentence_given_months cases)
          <= py_sum (map sentence_given_months cases)) as Hlen.
  { clear - Hpos. induction Hpos as [|h l Hh _ IH];
      [unfold py_len, py_sum; cbn; lia|].
    cbn [map]. rewrite py_sum_cons, py_len_cons. lia. }
  assert (0 < py_len (map sentence_given_months cases)) as Hn.
  { apply py_len_positive. destruct cases; [contradiction|discriminate]. }
  unfold nearest_tenth in Hnear.
  change (2 ^ 47) with 140737488355328 in Hsum.
  assert (10 <= t < 2 ^ 51) as Hrange.
  { change (2 ^ 51) with 2251799813685248. split; nia. }
  destruct (of_tenths_round_trip t Hrange) as (y & Hy & _ & Hfix).
  rewrite Ht in Hy. injection Hy as <-. exact Hfix.
Qed.

Lemma recommendation_is_stable_under_rounding_witness :
  10 <= 273 < 2 ^ 51 /\
  exists y, of_tenths 273 = Some y /\ tenths_of y = 273 /\
            round1 y = Return y.
Proof.
  assert (10 <= 273 < 2 ^ 51) as H by lia.
  split; [exact H|].
  exact (proj1 recommendation_is_stable_under_rounding 273 H).
Defined.

(** ** Further properties of the case-file registry *)

Lemma handle_keyed rq (db : odict CriminalCase) :
  keyed_by_case_id db -> keyed_by_case_id (snd (handle rq db)).
Proof.
  intros Hk. destruct rq as [|id' name|id'|id' item now|id' st]; cbn [handle].
  - exact Hk.
  - unfold api_create_case. destruct (db !! id') eqn:E; cbn [snd]; [exact Hk|].
    intros id c. destruct (decide (id' = id)) as [->|Hne].
    + rewrite odict_lookup_insert_eq. intros [= <-]. reflexivity.
    + rewrite odict_lookup_insert_ne by exact Hne. apply Hk.
  - unfold api_get_case. destruct (db !! id'); exact Hk.
  - unfold api_add_evidence.
    destruct (db !! id') as [c0|] eqn:E; cbn [snd]; [|exact Hk].
    intros id c. destruct (decide (id' = id)) as [->|Hne].
    + rewrite odict_lookup_insert_eq. intros [= <-]. cbn. now apply Hk.
    + rewrite odict_lookup_insert_ne by exact Hne. apply Hk.
  - unfold api_update_status.
    destruct (db !! id') as [c0|] eqn:E; cbn [snd]; [|exact Hk].
    intros id c. destruct (decide (id' = id)) as [->|Hne].
    + rewrite odict_lookup_insert_eq. intros [= <-]. cbn. now apply Hk.
    + rewrite odict_lookup_insert_ne by exact Hne. apply Hk.
Qed.

(** X7. Every record is stored under its own [case_id]: the requests keep
    this invariant, so it holds in every registry reached from the empty
    one. *)
Theorem records_are_keyed_by_case_id :
  (forall rqs (db : odict CriminalCase),
     keyed_by_case_id db -> keyed_by_case_id (serve rqs db)) /\
  (forall rqs id c,
     serve rqs ∅ !! id = Some c -> Registry.case_id c = id).
Proof.
  assert (forall rqs (db : odict CriminalCase),
     keyed_by_case_id db -> keyed_by_case_id (serve rqs db)) as Hinv.
  { induction rqs as [|rq rqs IH]; intros db Hk; cbn [serve]; [exact Hk|].
    apply IH, handle_keyed, Hk. }
  split; [exact Hinv|].
  intros rqs id c. apply (Hinv rqs ∅).
  intros id' c' H. rewrite odict_lookup_empty in H. discriminate H.
Qed.

Lemma records_are_keyed_by_case_id_witness :
  keyed_by_case_id ({[ "C1" := new_case "C1" "Alice" ]}
                    : odict CriminalCase) /\
  keyed_by_case_id
    (serve [AddEvidence "C1" "knife" "2024-01-01 10:00:00";
            CreateCase "C2" "Bob"]
           {[ "C1" := new_case "C1" "Alice" ]}).
Proof.
  assert (keyed_by_case_id ({[ "C1" := new_case "C1" "Alice" ]}
                            : odict CriminalCase)) as H.
  { intros id c Hc. apply odict_lookup_singleton_Some in Hc as [<- <-]. reflexivity. }
  split; [exact H|].
  exact (proj1 records_are_keyed_by_case_id _ _ H).
Defined.

(** X8. The identifier and the defendant of a registered case never
    change, whatever requests follow. *)
Theorem case_identity_is_immutable rqs (db : odict CriminalCase) id c :
  db !! id = Some c ->
  exists c', serve rqs db !! id = Some c' /\
             Registry.case_id c' = Registry.case_id c /\
             defendant_name c' = defendant_name c.
Proof.
  intros Hc.
  destruct (serve_preserves rqs db id c Hc) as (c' & Hc' & Hid & Hname & _).
  exists c'. auto.
Qed.

Lemma case_identity_is_immutable_witness :
  ({[ "C1" := new_case "C1" "Alice" ]} : odict CriminalCase) !! "C1"
  = Some (new_case "C1" "Alice") /\
  exists c',
    serve [CreateCase "C1" "Bob"; UpdateStatus "C1" "Trial"]
          {[ "C1" := new_case "C1" "Alice" ]} !! "C1" = Some c' /\
    Registry.case_id c' = Registry.case_id (new_case "C1" "Alice") /\
    defendant_name c' = defendant_name (new_case "C1" "Alice").
Proof.
  assert (({[ "C1" := new_case "C1" "Alice" ]} : odict CriminalCase)
            !! "C1" = Some (new_case "C1" "Alice")) as H
    by (vm_compute; reflexivity).
  split; [exact H|].
  exact (case_identity_is_immutable _ _ "C1" _ H).
Defined.

Lemma handle_frame rq (db : odict CriminalCase) id :
  target rq <> Some id -> snd (handle rq db) !! id = db !! id.
Proof.
  intros Ht.
  destruct rq as [|id' name|id'|id' item now|id' st]; cbn [handle];
    cbn [target] in Ht.
  - reflexivity.
  - unfold api_create_case. destruct (db !! id'); cbn [snd]; [reflexivity|].
    apply odict_lookup_insert_ne. congruence.
  - unfold api_get_case. destruct (db !! id'); reflexivity.
  - unfold api_add_evidence. destruct (db !! id'); cbn [snd]; [|reflexivity].
    apply odict_lookup_insert_ne. congruence.
  - unfold api_update_status. destruct (db !! id'); cbn [snd]; [|reflexivity].
    apply odict_lookup_insert_ne. congruence.
Qed.

(** X9. A request leaves the records of all cases it does not address
    untouched. *)
Theorem requests_leave_other_cases_untouched
    rq (db : odict CriminalCase) id :
  target rq <> Some id -> snd (handle rq db) !! id = db !! id.
Proof. apply handle_frame. Qed.

Lemma requests_leave_other_cases_untouched_witness :
  target (UpdateStatus "C2" "Trial") <> Some "C1" /\
  snd (handle (UpdateStatus "C2" "Trial")
         (<["C2" := new_case "C2" "Bob"]> {[ "C1" := new_case "C1" "Alice" ]}))
    !! "C1"
  = (<["C2" := new_case "C2" "Bob"]> {[ "C1" := new_case "C1" "Alice" ]}
     : odict CriminalCase) !! "C1".
Proof.
  assert (target (UpdateStatus "C2" "Trial") <> Some "C1") as H
    by (cbn; discriminate).
  split; [exact H|].
  exact (requests_leave_other_cases_untouched _ _ "C1" H).
Defined.

Lemma handle_frame_create id' name (db : odict CriminalCase) id c :
  db !! id = Some c -> snd (api_create_case id' name db) !! id = Some c.
Proof.
  intros Hc. unfold api_create_case.
  destruct (db !! id') eqn:E; cbn [snd]; [exact Hc|].
  rewrite odict_lookup_insert_ne by congruence. exact Hc.
Qed.

(** X10. The evidence log records exactly what was submitted: after any
    requests, the log of a registered case is its former log followed by
    the entries of the [add_evidence] requests for that case, in their
    order. *)
Theorem evidence_log_records_submissions
    rqs (db : odict CriminalCase) id c :
  db !! id = Some c ->
  exists c', serve rqs db !! id = Some c' /\
             evidence_log c' = evidence_log c ++ submitted_evidence id rqs.
Proof.
  revert db c. induction rqs as [|rq rqs IH]; intros db c Hc;
    cbn [serve].
  - exists c. split; [exact Hc|]. cbn. now rewrite app_nil_r.
  - destruct rq as [|id' name|id'|id' item now|id' st];
      cbn [handle submitted_evidence].
    + apply IH. exact Hc.
    + apply IH. now apply handle_frame_create.
    + apply IH. unfold api_get_case. destruct (db !! id'); exact Hc.
    + unfold api_add_evidence. destruct (decide (id' = id)) as [->|Hne].
      * rewrite Hc. cbn [snd].
        destruct (IH (<[id := add_evidence c item now]> db)
                    (add_evidence c item now) (odict_lookup_insert_eq _ _ _))
          as (c' & Hc' & Hlog).
        exists c'. split; [exact Hc'|]. rewrite Hlog. cbn.
        now rewrite <- app_assoc.
      * apply IH. destruct (db !! id'); cbn [snd]; [|exact Hc].
        now rewrite odict_lookup_insert_ne.
    + unfold api_update_status. destruct (db !! id') as [c0|] eqn:E;
        cbn [snd]; [|apply IH; exact Hc].
      destruct (decide (id' = id)) as [->|Hne].
      * rewrite Hc in E. injection E as <-.
        destruct (IH (<[id := update_status c st]> db)
                    (update_status c st) (odict_lookup_insert_eq _ _ _))
          as (c' & Hc' & Hlog).
        exists c'. split; [exact Hc'|exact Hlog].
      * apply IH. now rewrite odict_lookup_insert_ne.
Qed.

Lemma evidence_log_records_submissions_witness :
  ({[ "C1" := new_case "C1" "Alice" ]} : odict CriminalCase) !! "C1"
  = Some (new_case "C1" "Alice") /\
  exists c',
    serve [AddEvidence "C1" "knife" "2024-01-01 10:00:00";
           AddEvidence "C2" "glove" "2024-01-01 10:05:00";
           AddEvidence "C1" "note" "2024-01-01 10:10:00"]
          {[ "C1" := new_case "C1" "Alice" ]} !! "C1" = Some c' /\
    evidence_log c'
    = evidence_log (new_case "C1" "Alice")
      ++ submitted_evidence "C1"
           [AddEvidence "C1" "knife" "2024-01-01 10:00:00";
            AddEvidence "C2" "glove" "2024-01-01 10:05:00";
            AddEvidence "C1" "note" "2024-01-01 10:10:00"].
Proof.
  assert (({[ "C1" := new_case "C1" "Alice" ]} : odict CriminalCase)
            !! "C1" = Some (new_case "C1" "Alice")) as H
    by (vm_compute; reflexivity).
  split; [exact H|].
  exact (evidence_log_records_submissions _ _ "C1" _ H).
Defined.

(** X11. The status of a registered case after any requests is the one
    asked for by the last status update for that case, and its former
    status when there was none; no other request touches it. *)
Theorem status_is_last_update rqs (db : odict CriminalCase) id c :
  db !! id = Some c ->
  exists c', serve rqs db !! id = Some c' /\
             case_status c' = last_status id rqs (case_status c).
Proof.
  revert db c. induction rqs as [|rq rqs IH]; intros db c Hc; cbn [serve].
  - exists c. split; [exact Hc|reflexivity].
  - destruct rq as [|id' name|id'|id' item now|id' st];
      cbn [handle last_status].
    + apply IH. exact Hc.
    + apply IH. now apply handle_frame_create.
    + apply IH. unfold api_get_case. destruct (db !! id'); exact Hc.
    + unfold api_add_evidence. destruct (db !! id') as [c0|] eqn:E;
        cbn [snd]; [|apply IH; exact Hc].
      destruct (decide (id' = id)) as [->|Hne].
      * rewrite Hc in E. injection E as <-.
        apply (IH (<[id := add_evidence c item now]> db)
                 (add_evidence c item now) (odict_lookup_insert_eq _ _ _)).
      * apply IH. now rewrite odict_lookup_insert_ne.
    + unfold api_update_status. destruct (decide (id' = id)) as [->|Hne].
      * rewrite Hc. cbn [snd].
        apply (IH (<[id := update_status c st]> db)
                 (update_status c st) (odict_lookup_insert_eq _ _ _)).
      * apply IH. destruct (db !! id'); cbn [snd]; [|exact Hc].
        now rewrite odict_lookup_insert_ne.
Qed.

Lemma status_is_last_update_witness :
  ({[ "C1" := new_case "C1" "Alice" ]} : odict CriminalCase) !! "C1"
  = Some (new_case "C1" "Alice") /\
  exists c',
    serve [UpdateStatus "C1" "Trial"; UpdateStatus "C2" "Closed";
           AddEvidence "C1" "knife" "2024-01-01 10:00:00";
           UpdateStatus "C1" "Appeal"]
          {[ "C1" := new_case "C1" "Alice" ]} !! "C1" = Some c' /\
    case_status c'
    = last_status "C1"
        [UpdateStatus "C1" "Trial"; UpdateStatus "C2" "Closed";
         AddEvidence "C1" "knife" "2024-01-01 10:00:00";
         UpdateStatus "C1" "Appeal"]
        (case_status (new_case "C1" "Alice")).
Proof.
  assert (({[ "C1" := new_case "C1" "Alice" ]} : odict CriminalCase)
            !! "C1" = Some (new_case "C1" "Alice")) as H
    by (vm_compute; reflexivity).
  split; [exact H|].
  exact (status_is_last_update _ _ "C1" _ H).
Defined.

(** X12. A request for an identifier that is not registered never creates
    a record: reading it, adding evidence to it and updating its status all
    answer "not_found" and leave the registry as it was. *)
Theorem unregistered_case_is_not_found
    (db : odict CriminalCase) id item now new_status :
  db !! id = None ->
  api_get_case id db = (Message "not_found" "Case not found.", db) /\
  api_add_evidence id item now db
  = (Message "not_found" "Case not found.", db) /\
  api_update_status id new_status db
  = (Message "not_found" "Case not found.", db).
Proof.
  intros H. unfold api_get_case, api_add_evidence, api_update_status.
  rewrite H. auto.
Qed.

Lemma unregistered_case_is_not_found_witness :
  (∅ : odict CriminalCase) !! "C9" = None /\
  api_get_case "C9" ∅ = (Message "not_found" "Case not found.", ∅) /\
  api_add_evidence "C9" "knife" "2024-01-01 10:00:00" ∅
  = (Message "not_found" "Case not found.", ∅) /\
  api_update_status "C9" "Trial" ∅
  = (Message "not_found" "Case not found.", ∅).
Proof.
  assert ((∅ : odict CriminalCase) !! "C9" = None) as H
    by apply odict_lookup_empty.
  split; [exact H|].
  exact (unregistered_case_is_not_found ∅ "C9" "knife" "2024-01-01 10:00:00"
           "Trial" H).
Defined.

(** X13. Only creation registers a case and nothing unregisters one: the
    identifiers registered after any requests are those registered before
    together with those that the requests asked to create. *)
Theorem registered_ids_grow_by_creation rqs (db : odict CriminalCase) :
  dom (serve rqs db) = dom db ∪ created_ids rqs.
Proof.
  revert db. induction rqs as [|rq rqs IH]; intros db;
    cbn [serve created_ids].
  - now rewrite (right_id_L ∅ (∪)).
  - rewrite IH.
    assert (forall id' c (x : CriminalCase),
              db !! id' = Some c -> dom (<[id' := x]> db) = dom db) as Hsame.
    { intros id' c x E. apply odict_dom_insert_lookup. eauto. }
    destruct rq as [|id' name|id'|id' item now|id' st]; cbn [handle].
    + reflexivity.
    + unfold api_create_case. destruct (db !! id') eqn:E; cbn [snd].
      * rewrite (assoc_L (∪)). f_equal. symmetry.
        rewrite (comm_L (∪)). apply subseteq_union_1_L.
        apply singleton_subseteq_l, odict_elem_of_dom. eauto.
      * rewrite odict_dom_insert, (comm_L (∪) {[id']} (dom db)).
        now rewrite (assoc_L (∪)).
    + unfold api_get_case. destruct (db !! id'); reflexivity.
    + unfold api_add_evidence. destruct (db !! id') eqn:E; cbn [snd];
        [|reflexivity].
      now rewrite (Hsame _ _ _ E).
    + unfold api_update_status. destruct (db !! id') eqn:E; cbn [snd];
        [|reflexivity].
      now rewrite (Hsame _ _ _ E).
Qed.

(** X14. Requests that address different cases get the same answers in
    either order, and leave the same registry unless both register a new
    case.  Two new cases are kept in the order in which they were created:
    [api_get_all_cases] lists them after the earlier cases, first created
    first. *)
Theorem requests_for_different_cases_commute :
  (forall r1 r2 (db : odict CriminalCase) i j,
     target r1 = Some i -> target r2 = Some j -> i <> j ->
     fst (handle r1 (snd (handle r2 db))) = fst (handle r1 db) /\
     fst (handle r2 (snd (handle r1 db))) = fst (handle r2 db) /\
     (~ (registers r1 db /\ registers r2 db) ->
      serve [r1; r2] db = serve [r2; r1] db)) /\
  (forall (db : odict CriminalCase) i j a b,
     i <> j -> db !! i = None -> db !! j = None ->
     fst (api_get_all_cases (serve [CreateCase i a; CreateCase j b] db))
     = CaseList "success"
         (odict_values db ++ [new_case i a; new_case j b])).
Proof.
  split.
  - intros r1 r2 db i j H1 H2 Hij.
    assert (forall r, target r = Some i ->
              fst (handle r (snd (handle r2 db))) = fst (handle r db))
      as Hresp1.
    { intros r Hr. pose proof (handle_frame r2 db i ltac:(congruence)) as Hf.
      destruct r as [|i' name|i'|i' item now|i' st]; cbn [target] in Hr;
        [discriminate Hr|..]; injection Hr as ->; cbn [handle];
        unfold api_create_case, api_get_case, api_add_evidence,
          api_update_status; rewrite Hf; destruct (db !! i); reflexivity. }
    assert (forall r, target r = Some j ->
              fst (handle r (snd (handle r1 db))) = fst (handle r db))
      as Hresp2.
    { intros r Hr. pose proof (handle_frame r1 db j ltac:(congruence)) as Hf.
      destruct r as [|j' name|j'|j' item now|j' st]; cbn [target] in Hr;
        [discriminate Hr|..]; injection Hr as ->; cbn [handle];
        unfold api_create_case, api_get_case, api_add_evidence,
          api_update_status; rewrite Hf; destruct (db !! j); reflexivity. }
    split; [apply Hresp1, H1|]. split; [apply Hresp2, H2|].
    intros Hnot. cbn [serve].
    destruct r1 as [|i' n1|i'|i' it1 t1|i' s1]; cbn [target] in H1;
      [discriminate H1|..]; injection H1 as ->;
    (destruct r2 as [|j' n2|j'|j' it2 t2|j' s2]; cbn [target] in H2;
      [discriminate H2|..]; injection H2 as ->);
    cbn [handle registers] in *;
    unfold api_create_case, api_get_case, api_add_evidence,
      api_update_status;
    destruct (db !! i) as [ci|] eqn:Ei, (db !! j) as [cj|] eqn:Ej;
    cbn [snd];
    rewrite ?odict_lookup_insert_ne by congruence; rewrite ?Ei, ?Ej;
    cbn [snd]; try reflexivity;
    try (exfalso; apply Hnot; split; reflexivity);
    (symmetry; apply odict_insert_commute;
      [congruence|rewrite Ei, Ej; first [left; eexists; reflexivity
                                       |right; eexists; reflexivity]]).
  - intros db i j a b Hij Hi Hj. cbn [serve handle].
    unfold api_create_case at 2. rewrite Hi. cbn [snd].
    unfold api_create_case. rewrite odict_lookup_insert_ne by exact Hij.
    rewrite Hj. cbn [snd]. unfold api_get_all_cases. cbn [fst]. f_equal.
    unfold to_dict. rewrite map_id.
    rewrite odict_values_insert_fresh
      by (rewrite odict_lookup_insert_ne by exact Hij; exact Hj).
    rewrite odict_values_insert_fresh by exact Hi.
    now rewrite <- app_assoc.
Qed.

Lemma requests_for_different_cases_commute_witness :
  target (AddEvidence "C1" "knife" "2024-01-01 10:00:00") = Some "C1" /\
  target (CreateCase "C2" "Bob") = Some "C2" /\ "C1" <> "C2" /\
  ~ (registers (AddEvidence "C1" "knife" "2024-01-01 10:00:00")
       {[ "C1" := new_case "C1" "Alice" ]} /\
     registers (CreateCase "C2" "Bob") {[ "C1" := new_case "C1" "Alice" ]}) /\
  serve [AddEvidence "C1" "knife" "2024-01-01 10:00:00"; CreateCase "C2" "Bob"]
        ({[ "C1" := new_case "C1" "Alice" ]} : odict CriminalCase)
  = serve [CreateCase "C2" "Bob"; AddEvidence "C1" "knife" "2024-01-01 10:00:00"]
          {[ "C1" := new_case "C1" "Alice" ]}.
Proof.
  assert (target (AddEvidence "C1" "knife" "2024-01-01 10:00:00") = Some "C1")
    as H1 by reflexivity.
  assert (target (CreateCase "C2" "Bob") = Some "C2") as H2 by reflexivity.
  assert ("C1" <> "C2") as H3 by discriminate.
  assert (~ (registers (AddEvidence "C1" "knife" "2024-01-01 10:00:00")
               ({[ "C1" := new_case "C1" "Alice" ]} : odict CriminalCase) /\
             registers (CreateCase "C2" "Bob")
               {[ "C1" := new_case "C1" "Alice" ]})) as H4
    by (intros [[] _]).
  split; [exact H1|]. split; [exact H2|]. split; [exact H3|].
  split; [exact H4|].
  exact (proj2 (proj2 (proj1 requests_for_different_cases_commute
                         _ _ _ _ _ H1 H2 H3)) H4).
Defined.

(** X15. Adding evidence and updating the status of the same registered
    case are independent: in either order they leave the same registry. *)
Theorem evidence_and_status_commute
    (db : odict CriminalCase) id item now new_status :
  serve [AddEvidence id item now; UpdateStatus id new_status] db
  = serve [UpdateStatus id new_status; AddEvidence id item now] db.
Proof.
  cbn [serve handle]. unfold api_add_evidence, api_update_status.
  destruct (db !! id) as [c|] eqn:E; cbn [snd].
  - rewrite !odict_lookup_insert_eq. cbn [snd]. rewrite !odict_insert_insert_eq.
    reflexivity.
  - rewrite E. reflexivity.
Qed.

(** X16. [api_get_all_cases] lists exactly the registered records, each
    once per identifier: a record is listed if and only if it is stored
    under some identifier, the list is as long as the registry is large,
    and the registry itself is left as it was. *)
Theorem get_all_cases_lists_the_registry (db : odict CriminalCase) :
  exists l,
    api_get_all_cases db = (CaseList "success" l, db) /\
    (forall c, c ∈ l <-> exists id, db !! id = Some c) /\
    length l = size db.
Proof.
  eexists. split; [reflexivity|]. unfold to_dict. rewrite map_id. split.
  - intros c. apply odict_elem_of_values.
  - unfold odict_values, size, odict_size. apply length_fmap.
Qed.

(** ** The pre-trial risk score *)

(** X17. The risk score never decreases when the defendant has more prior
    offences, was first arrested younger, or loses stable employment. *)
Theorem risk_score_is_monotone (d d' : PreTrial.DefendantProfileInput) :
  PreTrial.prior_offenses d <= PreTrial.prior_offenses d' ->
  PreTrial.age_at_first_arrest d' <= PreTrial.age_at_first_arrest d ->
  (PreTrial.has_stable_employment d' = true ->
   PreTrial.has_stable_employment d = true) ->
  PreTrial.api_calculate_risk d <= PreTrial.api_calculate_risk d'.
Proof.
  intros Hp Ha He. unfold PreTrial.api_calculate_risk.
  destruct (Z.ltb_spec (PreTrial.age_at_first_arrest d) 21),
           (Z.ltb_spec (PreTrial.age_at_first_arrest d') 21);
    destruct (PreTrial.has_stable_employment d),
             (PreTrial.has_stable_employment d');
    cbn [negb]; try lia; specialize (He eq_refl); discriminate He.
Qed.

Lemma risk_score_is_monotone_witness :
  let d := {| PreTrial.prior_offenses := 1;
              PreTrial.age_at_first_arrest := 30;
              PreTrial.has_stable_employment := true |} in
  let d' := {| PreTrial.prior_offenses := 2;
               PreTrial.age_at_first_arrest := 19;
               PreTrial.has_stable_employment := false |} in
  PreTrial.prior_offenses d <= PreTrial.prior_offenses d' /\
  PreTrial.age_at_first_arrest d' <= PreTrial.age_at_first_arrest d /\
  (PreTrial.has_stable_employment d' = true ->
   PreTrial.has_stable_employment d = true) /\
  PreTrial.api_calculate_risk d <= PreTrial.api_calculate_risk d'.
Proof.
  intros d d'.
  assert (PreTrial.prior_offenses d <= PreTrial.prior_offenses d') as H1
    by (cbn; lia).
  assert (PreTrial.age_at_first_arrest d' <= PreTrial.age_at_first_arrest d)
    as H2 by (cbn; lia).
  assert (PreTrial.has_stable_employment d' = true ->
          PreTrial.has_stable_employment d = true) as H3 by reflexivity.
  split; [exact H1|]. split; [exact H2|]. split; [exact H3|].
  exact (risk_score_is_monotone d d' H1 H2 H3).
Defined.

(** X18. The risk score is three points per prior offence plus at most
    six: exactly four more for a first arrest before the age of 21 and
    exactly two more without stable employment.  The input is not
    validated, so a negative number of prior offences gives a negative
    score. *)
Theorem risk_score_bounds (d : PreTrial.DefendantProfileInput) :
  let base := 3 * PreTrial.prior_offenses d in
  let score := PreTrial.api_calculate_risk d in
  base <= score <= base + 6 /\
  (score = base <->
   21 <= PreTrial.age_at_first_arrest d /\
   PreTrial.has_stable_employment d = true) /\
  (score = base + 6 <->
   PreTrial.age_at_first_arrest d < 21 /\
   PreTrial.has_stable_employment d = false) /\
  (PreTrial.prior_offenses d <= -3 -> score < 0).
Proof.
  cbv zeta. unfold PreTrial.api_calculate_risk.
  destruct (Z.ltb_spec (PreTrial.age_at_first_arrest d) 21);
    destruct (PreTrial.has_stable_employment d); cbn [negb];
    repeat split; intros; try lia; try discriminate;
    match goal with H : _ /\ _ |- _ => destruct H end;
    try lia; discriminate.
Qed.

(** ** The violation check *)

Lemma safe_zone_check (p : Corrections.pyfloat) :
  Corrections.float_le Corrections.SAFE_ZONE_X_MIN p
  && Corrections.float_le p Corrections.SAFE_ZONE_X_MAX = true
  <-> inside_safe_zone p.
Proof.
  unfold Corrections.SAFE_ZONE_X_MIN, Corrections.SAFE_ZONE_X_MAX.
  destruct p as [x| | |]; cbn [Corrections.float_le inside_safe_zone andb];
    try (split; [discriminate|tauto]).
  rewrite andb_true_iff, !Qle_bool_iff.
  assert (to_Q (Float false 5629499534213120 (-49)) == 10)%Q as ->
    by reflexivity.
  assert (to_Q (Float false 6333186975989760 (-46)) == 90)%Q as ->
    by reflexivity.
  reflexivity.
Qed.

(** X19. The answer of [api_check_violation] names exactly the violations
    that occurred: the location violation when a coordinate is not a number
    in [10, 90], the curfew violation when the hour is at least 22 or below
    6, the location first; and "Status: Compliant", alone, exactly when
    there is neither. *)
Theorem check_violation_reports_exactly (data : Corrections.GpsInput) :
  let located := inside_safe_zone (Corrections.current_x data) /\
                 inside_safe_zone (Corrections.current_y data) in
  let curfew := in_curfew (Corrections.current_hour data) in
  let location_msg :=
    "Location Violation: Offender is outside the designated safe zone." in
  let curfew_msg := "Curfew Violation: Monitored during curfew hours." in
  (located /\ ~ curfew ->
   Corrections.api_check_violation data = ["Status: Compliant"]) /\
  (~ located /\ ~ curfew ->
   Corrections.api_check_violation data = [location_msg]) /\
  (located /\ curfew ->
   Corrections.api_check_violation data = [curfew_msg]) /\
  (~ located /\ curfew ->
   Corrections.api_check_violation data = [location_msg; curfew_msg]).
Proof.
  cbv zeta. unfold Corrections.api_check_violation, in_curfew.
  unfold Corrections.CURFEW_START_HOUR, Corrections.CURFEW_END_HOUR.
  pose proof (safe_zone_check (Corrections.current_x data)) as Hx.
  pose proof (safe_zone_check (Corrections.current_y data)) as Hy.
  unfold Corrections.SAFE_ZONE_Y_MIN, Corrections.SAFE_ZONE_Y_MAX.
  unfold Corrections.SAFE_ZONE_X_MIN, Corrections.SAFE_ZONE_X_MAX in *.
  destruct (Corrections.float_le _ (Corrections.current_x data)
            && Corrections.float_le (Corrections.current_x data) _);
    destruct (Corrections.float_le _ (Corrections.current_y data)
              && Corrections.float_le (Corrections.current_y data) _);
    destruct (Z.leb_spec 22 (Corrections.current_hour data));
    destruct (Z.ltb_spec (Corrections.current_hour data) 6);
    cbn [andb negb orb app truthy];
    repeat split; intros [Hl Hc]; try reflexivity;
    try (exfalso; lia);
    try (exfalso; apply Hl; split; [apply Hx|apply Hy]; reflexivity);
    try (exfalso; destruct Hl as [Hl1 Hl2];
         first [apply Hx in Hl1; discriminate Hl1
               |apply Hy in Hl2; discriminate Hl2]).
Qed.

Lemma risk_score_bounds_witness :
  PreTrial.prior_offenses
    {| PreTrial.prior_offenses := -3; PreTrial.age_at_first_arrest := 18;
       PreTrial.has_stable_employment := false |} <= -3 /\
  PreTrial.api_calculate_risk
    {| PreTrial.prior_offenses := -3; PreTrial.age_at_first_arrest := 18;
       PreTrial.has_stable_employment := false |} < 0.
Proof.
  assert (PreTrial.prior_offenses
            {| PreTrial.prior_offenses := -3;
               PreTrial.age_at_first_arrest := 18;
               PreTrial.has_stable_employment := false |} <= -3) as H
    by (cbn; lia).
  split; [exact H|].
  exact (proj2 (proj2 (proj2 (risk_score_bounds _))) H).
Defined.

Lemma check_violation_reports_exactly_witness :
  let data := {| Corrections.current_x := Corrections.Finite (Float false 25 1);
                 Corrections.current_y := Corrections.Finite (Float false 5 (-1));
                 Corrections.current_hour := 23 |} in
  (~ (inside_safe_zone (Corrections.current_x data) /\
      inside_safe_zone (Corrections.current_y data)) /\
   in_curfew (Corrections.current_hour data)) /\
  Corrections.api_check_violation data
  = ["Location Violation: Offender is outside the designated safe zone.";
     "Curfew Violation: Monitored during curfew hours."].
Proof.
  intros data.
  assert (~ (inside_safe_zone (Corrections.current_x data) /\
             inside_safe_zone (Corrections.current_y data)) /\
          in_curfew (Corrections.current_hour data)) as H.
  { split; [|left; cbn; lia].
    intros [_ [Hy _]]. vm_compute in Hy. apply Hy. reflexivity. }
  split; [exact H|].
  exact (proj2 (proj2 (proj2 (check_violation_reports_exactly data))) H).
Defined.

(** X20. The endpoint does not validate its input, it reports it: a
    coordinate that is infinite or not a number always gives the location
    violation, first in the list, and an hour outside 0..23 always gives
    the curfew violation. *)
Theorem unvalidated_position_is_a_violation (data : Corrections.GpsInput) :
  (not_finite (Corrections.current_x data) \/
   not_finite (Corrections.current_y data) ->
   head (Corrections.api_check_violation data)
   = Some "Location Violation: Offender is outside the designated safe zone.") /\
  (Corrections.current_hour data < 0 \/ 23 < Corrections.current_hour data ->
   "Curfew Violation: Monitored during curfew hours."
   ∈ Corrections.api_check_violation data).
Proof.
  unfold Corrections.api_check_violation.
  unfold Corrections.CURFEW_START_HOUR, Corrections.CURFEW_END_HOUR.
  split.
  - intros Hnf.
    assert (Corrections.float_le Corrections.SAFE_ZONE_X_MIN
              (Corrections.current_x data)
            && Corrections.float_le (Corrections.current_x data)
                 Corrections.SAFE_ZONE_X_MAX
            && (Corrections.float_le Corrections.SAFE_ZONE_Y_MIN
                  (Corrections.current_y data)
                && Corrections.float_le (Corrections.current_y data)
                     Corrections.SAFE_ZONE_Y_MAX) = false) as ->.
    { apply not_true_is_false. rewrite andb_true_iff.
      change Corrections.SAFE_ZONE_Y_MIN with Corrections.SAFE_ZONE_X_MIN.
      change Corrections.SAFE_ZONE_Y_MAX with Corrections.SAFE_ZONE_X_MAX.
      rewrite !safe_zone_check. intros [Hx Hy].
      destruct Hnf as [Hnf|Hnf];
        [destruct (Corrections.current_x data)
        |destruct (Corrections.current_y data)];
        cbn in Hnf, Hx, Hy; tauto. }
    cbn [negb app].
    destruct (_ || _); reflexivity.
  - intros Hh.
    destruct (Z.leb_spec 22 (Corrections.current_hour data));
      destruct (Z.ltb_spec (Corrections.current_hour data) 6);
      try lia; cbn [orb];
      destruct (negb (_ && _)); cbn [app truthy negb];
      repeat first [apply list_elem_of_here|apply list_elem_of_further].
Qed.

Lemma unvalidated_position_is_a_violation_witness :
  let data := {| Corrections.current_x := Corrections.NaN;
                 Corrections.current_y := Corrections.Finite (Float false 50 0);
                 Corrections.current_hour := 25 |} in
  (not_finite (Corrections.current_x data) \/
   not_finite (Corrections.current_y data)) /\
  head (Corrections.api_check_violation data)
  = Some "Location Violation: Offender is outside the designated safe zone.".
Proof.
  intros data.
  assert (not_finite (Corrections.current_x data) \/
          not_finite (Corrections.current_y data)) as H by (left; exact I).
  split; [exact H|].
  exact (proj1 (unvalidated_position_is_a_violation data) H).
Defined.

(** ** The suspect lookup *)

Lemma dict_get_Some {V} (d : Investigator.dict V) k v :
  Investigator.dict_get d k = Some v -> (k, v) ∈ d.
Proof.
  induction d as [|[k' v'] d IH]; cbn; [discriminate|].
  destruct (String.eqb_spec k' k) as [->|_].
  - intros [= ->]. left.
  - intros H. right. auto.
Qed.

Lemma dict_get_None {V} (d : Investigator.dict V) k :
  Investigator.dict_get d k = None <-> k ∉ map fst d.
Proof.
  induction d as [|[k' v'] d IH]; cbn [Investigator.dict_get map fst].
  - split; [intros _ H; inversion H|reflexivity].
  - rewrite not_elem_of_cons. destruct (String.eqb_spec k' k) as [->|Hne].
    + split; [discriminate|intros [[] _]; reflexivity].
    + rewrite IH. split; [intros H; split; [congruence|exact H]|tauto].
Qed.

(** X21. [find_match] answers from the database only: a match is always
    the record stored under the submitted hash, one of those listed by
    [get_suspect_database]; the answer is "not_found" exactly when no
    record is stored under the hash.  On [suspect_database] a match is
    found for exactly three hashes. *)
Theorem find_match_answers_from_the_database :
  (forall db h,
     (exists m,
        Investigator.find_match db h
        = Investigator.Found "success" "Match Found!" m /\
        (h, m) ∈ db /\
        exists l, Investigator.get_suspect_database db
                  = Investigator.Listing "success" l /\ m ∈ l) \/
     (Investigator.find_match db h
      = Investigator.NotFound "not_found" "No match found in the database." /\
      h ∉ map fst db)) /\
  (forall h,
     Investigator.api_find_match h
     = Investigator.NotFound "not_found" "No match found in the database."
     <-> h <> "A1B2-C3D4-E5F6" /\ h <> "F7E8-D9C0-B1A2" /\
         h <> "1234-5678-ABCD").
Proof.
  split.
  - intros db h. unfold Investigator.find_match.
    destruct (Investigator.dict_get db h) as [m|] eqn:E.
    + left. exists m. split; [reflexivity|].
      apply dict_get_Some in E. split; [exact E|].
      eexists. split; [reflexivity|].
      unfold Investigator.dict_values.
      apply list_elem_of_In, in_map_iff. exists (h, m).
      split; [reflexivity|now apply list_elem_of_In].
    + right. split; [reflexivity|]. now apply dict_get_None.
  - intros h.
    unfold Investigator.api_find_match, Investigator.find_match.
    destruct (Investigator.dict_get Investigator.suspect_database h)
      as [m|] eqn:E.
    + split; [discriminate|]. intros (H1 & H2 & H3).
      unfold Investigator.suspect_database in E.
      cbn [Investigator.dict_get] in E.
      destruct (String.eqb_spec "A1B2-C3D4-E5F6" h); [congruence|].
      destruct (String.eqb_spec "F7E8-D9C0-B1A2" h); [congruence|].
      destruct (String.eqb_spec "1234-5678-ABCD" h); [congruence|].
      discriminate E.
    + split; [|reflexivity]. intros _.
      apply dict_get_None in E.
      unfold Investigator.suspect_database in E. cbn [map fst] in E.
      rewrite !not_elem_of_cons in E. destruct E as (? & ? & ? & _). auto.
Qed.
